(** * easyfsl.utils: evaluation helpers for few-shot classifiers

    A shallow embedding of [src/easyfsl/utils.py] and the properties of its
    functions.

    Conventions of the embedding.
    - Python [int]s are [Z]; lengths and counts, which are never negative,
      are [nat].
    - Floating-point numbers are idealised as exact rationals ([Q]), extended
      with the one special value the code can produce on its own, [NaN]
      (numpy's mean of an empty array).  Rounding and fixed-width overflow are
      outside the model; two rationals are compared with [==].
    - A one-dimensional tensor or array is a list; a two-dimensional tensor
      keeps its number of columns next to its rows, since a tensor with no
      rows still has a width.
    - Code that can raise returns a [result]; the external collaborators
      (classifier, feature extractor, scikit-learn's [f1_score]) are fields
      of records or section variables and may raise too.
    - [.to(device)], [.detach()], [.cpu()], [.data], [.numpy()] and
      [torch.no_grad()] move or re-wrap data without changing its values and
      are the identity here. *)

From Stdlib Require Import String.
From Stdlib Require Import List ZArith QArith Qabs Lia Bool.
Import ListNotations.

Local Open Scope Z_scope.

(* ------------------------------------------------------------------ *)
(** ** Exceptions and the error monad *)

Inductive exn : Type :=
| ValueError (msg : string)
| ZeroDivisionError
| RuntimeError (msg : string)
| CollaboratorError (msg : string).

Inductive result (A : Type) : Type :=
| Ok (a : A)
| Raise (e : exn).

Arguments Ok {A} a.
Arguments Raise {A} e.

Definition bind {A B : Type} (m : result A) (k : A -> result B) : result B :=
  match m with
  | Ok a => k a
  | Raise e => Raise e
  end.

Notation "x <- m ;; k" := (bind m (fun x => k))
  (at level 61, m at next level, right associativity).
Notation "' p <- m ;; k" := (bind m (fun p => k))
  (at level 61, p pattern, m at next level, right associativity).

Definition returns {A : Type} (m : result A) : Prop := exists a, m = Ok a.

Definition raises {A : Type} (m : result A) : Prop := exists e, m = Raise e.

(* ------------------------------------------------------------------ *)
(** ** Numbers *)

(** A float as the code can produce it: a number, or the not-a-number that
    [numpy.mean] gives for an empty array. *)
Inductive npfloat : Type :=
| Num (q : Q)
| NaN.

(** Python's [==] on floats: [NaN] is equal to nothing, itself included. *)
Definition npfloat_eq (x y : npfloat) : Prop :=
  match x, y with
  | Num a, Num b => (a == b)%Q
  | _, _ => False
  end.

Definition Qsum (l : list Q) : Q := fold_right Qplus 0%Q l.

Definition len {A : Type} (l : list A) : Z := Z.of_nat (length l).

(** [numpy.mean] of a one-dimensional array: the sum over the count, and
    [NaN] (with a warning, not an exception) when the array is empty. *)
Definition np_mean (a : list Q) : npfloat :=
  match a with
  | [] => NaN
  | _ :: _ => Num (Qsum a / inject_Z (len a))%Q
  end.

(** Python's true division of two integers. *)
Definition true_div (a b : Z) : result Q :=
  if b =? 0 then Raise ZeroDivisionError
  else Ok (inject_Z a / inject_Z b)%Q.

(* ------------------------------------------------------------------ *)
(** ** Sequences *)

(** The slice [l[start:]]: a negative [start] counts from the end, and
    both ends are clipped to the list. *)
Definition slice_from {A : Type} (start : Z) (l : list A) : list A :=
  let n := len l in
  let s := if start <? 0 then Z.max (start + n) 0 else Z.min start n in
  skipn (Z.to_nat s) l.

(** The last [w] elements of a list, read from its end. *)
Definition last_elements {A : Type} (w : nat) (l : list A) : list A :=
  rev (firstn w (rev l)).

(* ------------------------------------------------------------------ *)
(** ** sliding_average *)

(** [sliding_average] over an arbitrary averaging function, to tell what
    happens before the average from what the average does. *)
Definition sliding_average_with {R : Type} (mean : list Q -> R)
    (value_list : list Q) (window : Z) : result R :=
  if len value_list =? 0 then
    Raise (ValueError "Cannot perform sliding average on an empty list."%string)
  else Ok (mean (slice_from (- window) value_list)).

Definition sliding_average (value_list : list Q) (window : Z) : result npfloat :=
  sliding_average_with np_mean value_list window.

(* ------------------------------------------------------------------ *)
(** ** numpy arithmetic on one-dimensional arrays *)

(** An element-wise binary operation with numpy's (and torch's) broadcasting
    rule for one dimension: equal lengths pair up, an array of length one is
    stretched to the other's length, anything else raises [err]. *)
Definition broadcast2 {A B C : Type} (err : exn) (f : A -> B -> C)
    (xs : list A) (ys : list B) : result (list C) :=
  if Nat.eqb (length xs) (length ys) then
    Ok (map (fun p => f (fst p) (snd p)) (combine xs ys))
  else
    match xs, ys with
    | [x], _ => Ok (map (f x) ys)
    | _, [y] => Ok (map (fun x => f x y) xs)
    | _, _ => Raise err
    end.

Definition np_sub : list Q -> list Q -> result (list Q) :=
  broadcast2
    (ValueError "operands could not be broadcast together"%string) Qminus.

Definition np_square (a : list Q) : list Q := map (fun x => x ^ 2)%Q a.

Definition np_abs (a : list Q) : list Q := map Qabs a.

(** ** mean_squared_error, mean_absolute_error *)

Definition mean_squared_error (y_true y_pred : list Q) : result npfloat :=
  d <- np_sub y_true y_pred ;;
  Ok (np_mean (np_square d)).

Definition mean_absolute_error (y_true y_pred : list Q) : result npfloat :=
  d <- np_sub y_true y_pred ;;
  Ok (np_mean (np_abs d)).

(** The two metrics in the words of their description: the mean of the
    squares, and of the absolute values, of the differences taken position
    by position. *)
Fixpoint differences (a b : list Q) : list Q :=
  match a, b with
  | x :: a', y :: b' => (x - y)%Q :: differences a' b'
  | _, _ => []
  end.

Definition mean_of_squared_differences (a b : list Q) : npfloat :=
  np_mean (map (fun d => d * d)%Q (differences a b)).

Definition mean_of_absolute_differences (a b : list Q) : npfloat :=
  np_mean (map Qabs (differences a b)).

(* ------------------------------------------------------------------ *)
(** ** Tensors *)

(** A two-dimensional tensor of shape [(length rows, ncols)]. *)
Record tensor2 : Type := mkTensor2 {
  ncols : nat;
  rows : list (list Q)
}.

Definition well_shaped (t : tensor2) : Prop :=
  Forall (fun r => length r = ncols t) (rows t).

(** Index of the first greatest element of a row, scanning left to right;
    [best] and [bv] are the index and value of the greatest element so far,
    [i] the index of the head of [l]. *)
Fixpoint argmax_from (i best : nat) (bv : Q) (l : list Q) : nat :=
  match l with
  | [] => best
  | x :: l' =>
      if Qle_bool x bv then argmax_from (S i) best bv l'
      else argmax_from (S i) i x l'
  end.

Definition argmax (row : list Q) : nat :=
  match row with
  | [] => O
  | x :: l => argmax_from 1 0 x l
  end.

(** [torch.max(t, 1)[1]]: per row, the index of the greatest score.
    Reducing over a dimension of size zero raises. *)
Definition torch_max_dim1_indices (t : tensor2) : result (list Z) :=
  if Nat.eqb (ncols t) 0 then
    Raise (RuntimeError "max(): Expected reduction dim 1 to have non-zero size."%string)
  else Ok (map (fun r => Z.of_nat (argmax r)) (rows t)).

(** [a == b] on one-dimensional integer tensors. *)
Definition torch_eq : list Z -> list Z -> result (list bool) :=
  broadcast2
    (RuntimeError "The size of tensor a must match the size of tensor b"%string)
    Z.eqb.

(** [.sum().item()] of a boolean tensor. *)
Definition sum_item (t : list bool) : nat := count_occ bool_dec t true.

(** [torch.cat] along dimension 0: the list must not be empty and the
    tensors must agree on every other dimension. *)
Definition torch_cat (tensors : list tensor2) : result tensor2 :=
  match tensors with
  | [] => Raise (RuntimeError "torch.cat(): expected a non-empty list of Tensors"%string)
  | t :: _ =>
      if forallb (fun u => Nat.eqb (ncols u) (ncols t)) tensors then
        Ok (mkTensor2 (ncols t) (concat (map rows tensors)))
      else
        Raise (RuntimeError "Sizes of tensors must match except in dimension 0"%string)
  end.

(* ------------------------------------------------------------------ *)
(** ** predict_embeddings *)

(** The labels of a batch, as a data loader delivers them: a tensor, or a
    plain sequence. *)
Inductive class_names_t (Label : Type) : Type :=
| LabelTensor (t : list Label)
| LabelSequence (l : list Label).

Arguments LabelTensor {Label} t.
Arguments LabelSequence {Label} l.

Definition tolist {Label : Type} (t : list Label) : list Label := t.

Definition batch_labels {Label : Type} (c : class_names_t Label) : list Label :=
  match c with
  | LabelTensor t => t
  | LabelSequence l => l
  end.

(** A data frame with the columns [embedding] and [class_name]. *)
Record row (Label : Type) : Type := mkRow {
  embedding : list Q;
  class_name : Label
}.

Arguments mkRow {Label} embedding class_name.
Arguments embedding {Label} r.
Arguments class_name {Label} r.

(** [pd.DataFrame] of two columns given as lists: their lengths must agree. *)
Definition DataFrame {Label : Type} (embeddings : list (list Q))
    (class_names : list Label) : result (list (row Label)) :=
  if Nat.eqb (length embeddings) (length class_names) then
    Ok (map (fun p => mkRow (fst p) (snd p)) (combine embeddings class_names))
  else Raise (ValueError "All arrays must be of the same length"%string).

Section PredictEmbeddings.

Context {Image Label : Type}.

(** The feature extractor: a batch of images to a batch of embeddings. *)
Variable model : list Image -> result tensor2.

Definition batch : Type := (list Image * class_names_t Label)%type.

(** The body of the loop over the data loader, on the two accumulators. *)
Definition embed_batch (acc : list tensor2 * list Label) (b : batch)
    : result (list tensor2 * list Label) :=
  let '(all_embeddings, all_class_names) := acc in
  let '(images, class_names) := b in
  e <- model images ;;
  let all_embeddings := all_embeddings ++ [e] in
  let all_class_names :=
    match class_names with
    | LabelTensor t => all_class_names ++ tolist t
    | LabelSequence l => all_class_names ++ l
    end in
  Ok (all_embeddings, all_class_names).

Fixpoint embed_batches (acc : list tensor2 * list Label)
    (dataloader : list batch) : result (list tensor2 * list Label) :=
  match dataloader with
  | [] => Ok acc
  | b :: rest => acc' <- embed_batch acc b ;; embed_batches acc' rest
  end.

Definition predict_embeddings (dataloader : list batch)
    : result (list (row Label)) :=
  '(all_embeddings, all_class_names) <- embed_batches ([], []) dataloader ;;
  concatenated_embeddings <- torch_cat all_embeddings ;;
  DataFrame (rows concatenated_embeddings) all_class_names.

(** The number of elements of a batch, and of the whole data source. *)
Definition batch_size (b : batch) : nat := length (fst b).

Definition total_elements (dataloader : list batch) : nat :=
  list_sum (map batch_size dataloader).

End PredictEmbeddings.

(* ------------------------------------------------------------------ *)
(** ** compute_average_features_from_images *)




Section AverageFeatures.

Context {Image Label : Type}.

Variable model : list Image -> result tensor2.


End AverageFeatures.

(* ------------------------------------------------------------------ *)
(** ** The few-shot classifier *)

(** The methods of a [FewShotClassifier] that the evaluation uses, over the
    classifier's internal state [St]. *)
Record FewShotClassifier (Image St : Type) : Type := mkClassifier {
  eval : St -> St;
  process_support_set : St -> list Image -> list Z -> result St;
  forward : St -> list Image -> result (St * tensor2)
}.

Arguments eval {Image St} f s.
Arguments process_support_set {Image St} f s support_images support_labels.
Arguments forward {Image St} f s query_images.

(** One few-shot classification task, as the data loader yields it. *)
Record episode (Image : Type) : Type := mkEpisode {
  support_images : list Image;
  support_labels : list Z;
  query_images : list Image;
  query_labels : list Z;
  class_ids : list Z
}.

Arguments mkEpisode {Image}.
Arguments support_images {Image} e.
Arguments support_labels {Image} e.
Arguments query_images {Image} e.
Arguments query_labels {Image} e.
Arguments class_ids {Image} e.

(** What [evaluate] writes besides its return value. *)
Inductive output (F1 : Type) : Type :=
| PrintLength (what : string) (n : nat)
| SetPostfix (accuracy : Q)
| PrintF1 (f1 : F1)
| PrintError (what : string) (x : npfloat).

Arguments PrintLength {F1} what n.
Arguments SetPostfix {F1} accuracy.
Arguments PrintF1 {F1} f1.
Arguments PrintError {F1} what x.

(** The running state of [evaluate]: its local variables, the classifier's
    internal state and what has been written so far. *)
Record run (St F1 : Type) : Type := mkRun {
  total_predictions : nat;
  correct_predictions : nat;
  predictions_all : list Z;
  query_labels_all : list Z;
  classifier : St;
  stdout : list (output F1)
}.

Arguments mkRun {St F1}.
Arguments total_predictions {St F1} r.
Arguments correct_predictions {St F1} r.
Arguments predictions_all {St F1} r.
Arguments query_labels_all {St F1} r.
Arguments classifier {St F1} r.
Arguments stdout {St F1} r.

Section Evaluation.

Context {Image St F1 : Type}.

Variable model : FewShotClassifier Image St.

(** scikit-learn's [f1_score (..., average=None)]. *)
Variable f1_score : list Z -> list Z -> result F1.

(** ** evaluate_on_one_task *)

Definition evaluate_on_one_task (s : St)
    (support_images : list Image) (support_labels : list Z)
    (query_images : list Image) (query_labels : list Z)
    : result (St * (nat * nat * list Z * list Z)) :=
  s <- process_support_set model s support_images support_labels ;;
  '(s, predictions) <- forward model s query_images ;;
  indices <- torch_max_dim1_indices predictions ;;
  hits <- torch_eq indices query_labels ;;
  let number_of_correct_predictions := sum_item hits in
  predicted_labels <- torch_max_dim1_indices predictions ;;
  Ok (s, (number_of_correct_predictions, length query_labels,
          predicted_labels, query_labels)).

(** ** evaluate *)

(** The body of the loop over the episodes, up to the update of the
    running counters and collections. *)
Definition accumulate (r : run St F1) (ep : episode Image)
    : result (run St F1) :=
  let out :=
    stdout r ++
    [PrintLength "support_images" (length (support_images ep));
     PrintLength "support_labels" (length (support_labels ep));
     PrintLength "query_images" (length (query_images ep));
     PrintLength "query_labels" (length (query_labels ep))] in
  '(s, (correct, total, predictions_per_task, query_labels_per_task)) <-
    evaluate_on_one_task (classifier r)
      (support_images ep) (support_labels ep)
      (query_images ep) (query_labels ep) ;;
  let total_predictions := (total_predictions r + total)%nat in
  let correct_predictions := (correct_predictions r + correct)%nat in
  let predictions_all := predictions_all r ++ predictions_per_task in
  let query_labels_all := query_labels_all r ++ query_labels_per_task in
  Ok (mkRun total_predictions correct_predictions predictions_all
            query_labels_all s out).

(** The whole body: the update, then the running accuracy shown on the
    progress bar.  The accuracy is computed whether or not the bar is
    displayed. *)
Definition evaluate_episode (r : run St F1) (ep : episode Image)
    : result (run St F1) :=
  r <- accumulate r ep ;;
  accuracy <- true_div (Z.of_nat (correct_predictions r))
                       (Z.of_nat (total_predictions r)) ;;
  Ok (mkRun (total_predictions r) (correct_predictions r)
            (predictions_all r) (query_labels_all r) (classifier r)
            (stdout r ++ [SetPostfix accuracy])).

Fixpoint evaluate_episodes (r : run St F1) (data_loader : list (episode Image))
    : result (run St F1) :=
  match data_loader with
  | [] => Ok r
  | ep :: rest => r' <- evaluate_episode r ep ;; evaluate_episodes r' rest
  end.

Definition initial_run (s : St) : run St F1 :=
  mkRun 0 0 [] [] (eval model s) [].

(** [evaluate]: the returned accuracy, with the final running state. *)
Definition evaluate (s : St) (data_loader : list (episode Image))
    : result (Q * run St F1) :=
  r <- evaluate_episodes (initial_run s) data_loader ;;
  let out :=
    stdout r ++
    [PrintLength "Number of Query Labels - Val" (length (query_labels_all r));
     PrintLength "Number of Predicted Labels - Val" (length (predictions_all r))] in
  f1 <- f1_score (query_labels_all r) (predictions_all r) ;;
  let out := out ++ [PrintF1 f1] in
  mse <- mean_squared_error (map inject_Z (query_labels_all r))
                            (map inject_Z (predictions_all r)) ;;
  mae <- mean_absolute_error (map inject_Z (query_labels_all r))
                             (map inject_Z (predictions_all r)) ;;
  let out :=
    out ++ [PrintError "Mean Squared Error (MSE)" mse;
            PrintError "Mean Absolute Error (MAE)" mae] in
  accuracy <- true_div (Z.of_nat (correct_predictions r))
                       (Z.of_nat (total_predictions r)) ;;
  Ok (accuracy,
      mkRun (total_predictions r) (correct_predictions r)
            (predictions_all r) (query_labels_all r) (classifier r) out).


End Evaluation.

(* ------------------------------------------------------------------ *)
(** ** Notions used to state the properties *)

(** [i] is an index of a greatest element of [row]. *)
Definition is_max_index (row : list Q) (i : nat) : Prop :=
  (i < length row)%nat /\
  forall j x, nth_error row j = Some x -> (x <= nth i row 0)%Q.

(** Number of positions at which two label sequences agree. *)
Fixpoint count_equal (predicted true_labels : list Z) : nat :=
  match predicted, true_labels with
  | p :: predicted', t :: true_labels' =>
      ((if Z.eqb p t then 1 else 0) + count_equal predicted' true_labels')%nat
  | _, _ => O
  end.

(** A result that is a number equal to [q]. *)
Definition returns_number (m : result npfloat) (q : Q) : Prop :=
  exists x, m = Ok x /\ npfloat_eq x (Num q).





(** The quotient of two counts, as a rational. *)
Definition ratio (correct total : nat) : Q :=
  (inject_Z (Z.of_nat correct) / inject_Z (Z.of_nat total))%Q.


Section EmbeddingTable.

Context {Image Label : Type}.

Variable model : list Image -> result tensor2.

(** The elements of one batch: each image's embedding with its label. *)
Definition batch_elements (b : @batch Image Label) : list (list Q * Label) :=
  match model (fst b) with
  | Ok e => combine (rows e) (batch_labels (snd b))
  | Raise _ => []
  end.

(** The elements of the whole data source, batch after batch. *)
Definition all_elements (dataloader : list (@batch Image Label))
    : list (list Q * Label) :=
  concat (map batch_elements dataloader).

(** The feature extractor gives, for this batch, one embedding of
    dimension [d] per image, and the batch has one label per image. *)
Definition batch_ok (d : nat) (b : @batch Image Label) : Prop :=
  exists e, model (fst b) = Ok e /\
            length (rows e) = length (fst b) /\
            ncols e = d /\ well_shaped e /\
            length (batch_labels (snd b)) = length (fst b).

(** The embeddings of the batches, in order; the first failure of the
    feature extractor ends the computation. *)
Fixpoint batch_embeddings (dataloader : list (@batch Image Label))
    : result (list tensor2) :=
  match dataloader with
  | [] => Ok []
  | b :: rest =>
      e <- model (fst b) ;;
      es <- batch_embeddings rest ;;
      Ok (e :: es)
  end.

(** The labels of all batches, in order. *)
Definition all_labels (dataloader : list (@batch Image Label)) : list Label :=
  concat (map (fun b => batch_labels (snd b)) dataloader).

End EmbeddingTable.

(* ------------------------------------------------------------------ *)
(** ** Further notions *)

(** Two floats that are the same number, or both [NaN]. *)
Definition npfloat_same (x y : npfloat) : Prop :=
  match x, y with
  | Num a, Num b => (a == b)%Q
  | NaN, NaN => True
  | _, _ => False
  end.

(** Two calls that end the same way: the same exception, or the same
    float. *)
Definition same_outcome (m1 m2 : result npfloat) : Prop :=
  match m1, m2 with
  | Ok x, Ok y => npfloat_same x y
  | Raise e1, Raise e2 => e1 = e2
  | _, _ => False
  end.



(** The collected arrays have one entry per counted prediction, and the
    correct predictions are the positions at which they agree. *)
Definition arrays_agree {St F1 : Type} (r : run St F1) : Prop :=
  length (predictions_all r) = total_predictions r /\
  length (query_labels_all r) = total_predictions r /\
  correct_predictions r = count_equal (predictions_all r) (query_labels_all r).

(** The single-task evaluator gives one prediction per query label on the
    episodes of a data loader, whatever the state of the classifier. *)
Definition one_prediction_per_label {Image St : Type}
    (model : FewShotClassifier Image St)
    (data_loader : list (episode Image)) : Prop :=
  forall ep, In ep data_loader ->
  forall st s' correct total predicted labels,
    evaluate_on_one_task model st
      (support_images ep) (support_labels ep)
      (query_images ep) (query_labels ep)
    = Ok (s', (correct, total, predicted, labels)) ->
    length predicted = length labels.


(* ------------------------------------------------------------------ *)
(** ** Concrete collaborators, for the examples *)

Module Toy.

(** A classifier over two classes whose images are integers: image [0] is
    scored for class 0, any other image for class 1.  Its state counts the
    support sets it has processed. *)
Definition score (x : Z) : list Q :=
  if x =? 0 then [1%Q; 0%Q] else [0%Q; 1%Q].

Definition classifier : FewShotClassifier Z nat :=
  mkClassifier Z nat
    (fun s => s)
    (fun s _ _ => Ok (S s))
    (fun s query_images => Ok (s, mkTensor2 2 (map score query_images))).

Definition f1_score (y_true y_pred : list Z) : result unit := Ok tt.

(** Two queries predicted [0; 1] with true labels [0; 0]. *)
Definition half_right : episode Z :=
  mkEpisode [0; 1] [0; 1] [0; 1] [0; 0] [0; 1].

(** Three queries, all predicted right. *)
Definition all_right : episode Z :=
  mkEpisode [0; 1] [0; 1] [1; 0; 1] [1; 0; 1] [0; 1].

(** An episode with an empty query set. *)
Definition no_query : episode Z :=
  mkEpisode [0; 1] [0; 1] [] [] [0; 1].

(** A feature extractor with embeddings of dimension 4. *)
Definition embed (x : Z) : list Q :=
  [inject_Z x; inject_Z (x + 1); inject_Z (x + 2); inject_Z (x + 3)].

Definition extractor (images : list Z) : result tensor2 :=
  Ok (mkTensor2 4 (map embed images)).

(** Three batches of sizes 2, 3 and 1; the labels of the first and third
    come as tensors, those of the second as a plain list. *)
Definition three_batches : list (@batch Z Z) :=
  [([10; 20], LabelTensor [1; 2]);
   ([30; 40; 50], LabelSequence [3; 4; 5]);
   ([60], LabelTensor [6])].

End Toy.

Module ToyMore.

(** A feature extractor that refuses negative images. *)
Definition picky_extractor (images : list Z) : result tensor2 :=
  if forallb (fun x => 0 <=? x) images then Toy.extractor images
  else Raise (CollaboratorError "negative image").

(** A feature extractor whose embeddings are as wide as the batch is
    long. *)
Definition ragged_extractor (images : list Z) : result tensor2 :=
  Ok (mkTensor2 (length images)
                (map (fun _ => repeat 0%Q (length images)) images)).

(** Two batches with three images and three labels in all, the first with
    one label too few, the second with one too many. *)
Definition shifted_batches : list (@batch Z Z) :=
  [([10; 20], LabelTensor [1]); ([30], LabelSequence [2; 3])].

(** Two images with one label. *)
Definition short_of_labels : list (@batch Z Z) :=
  [([10; 20], LabelTensor [1])].


End ToyMore.

(* ================================================================== *)
(** * Properties *)

(** ** The error monad *)

Lemma bind_Ok {A B : Type} (m : result A) (k : A -> result B) (b : B) :
  bind m k = Ok b -> exists a, m = Ok a /\ k a = Ok b.
Proof.
  destruct m as [a | e]; simpl; intros H.
  - exists a. split; [reflexivity | exact H].
  - discriminate H.
Qed.

Lemma returns_not_raises {A : Type} (m : result A) :
  returns m -> ~ raises m.
Proof.
  intros [a Ha] [e He]. rewrite Ha in He. discriminate He.
Qed.

(** Splits a hypothesis [H : bind m k = Ok b] into the value [a] of [m],
    the equation [Ha : m = Ok a] and [H : k a = Ok b]. *)
Tactic Notation "inv_bind" hyp(H) "as" ident(a) ident(Ha) :=
  apply bind_Ok in H; destruct H as [a [Ha H]].

(** ** Slices *)









(** ** sliding_average *)



(** C4. On the empty list [sliding_average] raises its [ValueError] for
    every window, and it does so whatever the averaging function is: the
    average is not reached. *)
Theorem sliding_average_empty (w : Z) :
  sliding_average [] w =
    Raise (ValueError "Cannot perform sliding average on an empty list.") /\
  forall (R : Type) (mean : list Q -> R),
    sliding_average_with mean [] w =
      Raise (ValueError "Cannot perform sliding average on an empty list.").
Proof.
  split; [| intros R mean]; reflexivity.
Qed.



(** With a negative window the elements averaged are not the last [|w|]
    ones: of [1; 2; 3; 6] and window [-1] the result is the mean of
    [2; 3; 6], not of [6]. *)
Example sliding_average_negative_not_last :
  exists x, sliding_average [1; 2; 3; 6]%Q (-1) = Ok x /\
            npfloat_eq x (Num (11 # 3)) /\
            ~ npfloat_eq x (np_mean (last_elements 1 [1; 2; 3; 6]%Q)).
Proof.
  eexists. split; [reflexivity |]. split.
  - reflexivity.
  - simpl. intros H. discriminate H.
Qed.

(** ** mean_squared_error, mean_absolute_error *)

Lemma np_sub_same_length (a b : list Q) :
  length a = length b -> np_sub a b = Ok (differences a b).
Proof.
  intros Hlen. unfold np_sub, broadcast2.
  rewrite Hlen, Nat.eqb_refl. f_equal.
  revert b Hlen. induction a as [| x a IH]; intros [| y b] Hlen;
    try discriminate Hlen; simpl.
  - reflexivity.
  - f_equal. apply IH. injection Hlen as Hlen. exact Hlen.
Qed.

Lemma differences_nil_iff (a b : list Q) :
  length a = length b -> (differences a b = [] <-> a = []).
Proof.
  destruct a as [| x a], b as [| y b]; simpl; intros Hlen;
    try discriminate Hlen; split; intros H;
    try reflexivity; discriminate H.
Qed.

(** The differences of a sequence with itself sum to zero under any
    function that vanishes at zero. *)
Lemma Qsum_self_differences (f : Q -> Q) (a : list Q) :
  (forall x, f (x - x) == 0)%Q -> (Qsum (map f (differences a a)) == 0)%Q.
Proof.
  intros Hf. induction a as [| x a IH]; simpl.
  - reflexivity.
  - rewrite Hf, IH. reflexivity.
Qed.

Lemma np_mean_zero_sum (l : list Q) :
  l <> [] -> (Qsum l == 0)%Q -> npfloat_eq (np_mean l) (Num 0).
Proof.
  destruct l as [| x l]; intros Hl Hsum; [contradiction |].
  unfold np_mean, npfloat_eq. rewrite Hsum.
  unfold Qdiv. apply Qmult_0_l.
Qed.

Lemma mean_squared_error_same_length (a b : list Q) :
  length a = length b ->
  mean_squared_error a b = Ok (mean_of_squared_differences a b).
Proof.
  intros Hlen. unfold mean_squared_error.
  rewrite (np_sub_same_length a b Hlen). reflexivity.
Qed.

Lemma mean_absolute_error_same_length (a b : list Q) :
  length a = length b ->
  mean_absolute_error a b = Ok (mean_of_absolute_differences a b).
Proof.
  intros Hlen. unfold mean_absolute_error.
  rewrite (np_sub_same_length a b Hlen). reflexivity.
Qed.

Lemma mean_squared_error_self (a : list Q) :
  a <> [] -> returns_number (mean_squared_error a a) 0.
Proof.
  intros Ha. exists (mean_of_squared_differences a a). split.
  - apply mean_squared_error_same_length. reflexivity.
  - apply np_mean_zero_sum.
    + intros H. apply map_eq_nil in H.
      apply (differences_nil_iff a a eq_refl) in H. contradiction.
    + apply Qsum_self_differences. intros x. ring.
Qed.

Lemma mean_absolute_error_self (a : list Q) :
  a <> [] -> returns_number (mean_absolute_error a a) 0.
Proof.
  intros Ha. exists (mean_of_absolute_differences a a). split.
  - apply mean_absolute_error_same_length. reflexivity.
  - apply np_mean_zero_sum.
    + intros H. apply map_eq_nil in H.
      apply (differences_nil_iff a a eq_refl) in H. contradiction.
    + apply Qsum_self_differences. intros x.
      assert (H0 : (x - x == 0)%Q) by ring.
      rewrite H0. reflexivity.
Qed.

(** C6, as the code has it. For two sequences of equal length
    [mean_squared_error] is the mean of the squared differences and
    [mean_absolute_error] the mean of the absolute differences; both are 0 on
    a non-empty sequence and itself; on [1; 2; 3] and [1; 2; 4] both are
    1/3. *)
Theorem metrics_mean_of_differences (a b : list Q) :
  length a = length b ->
  mean_squared_error a b = Ok (mean_of_squared_differences a b) /\
  mean_absolute_error a b = Ok (mean_of_absolute_differences a b) /\
  (a <> [] ->
   returns_number (mean_squared_error a a) 0 /\
   returns_number (mean_absolute_error a a) 0) /\
  returns_number (mean_squared_error [1; 2; 3] [1; 2; 4])%Q (1 # 3) /\
  returns_number (mean_absolute_error [1; 2; 3] [1; 2; 4])%Q (1 # 3).
Proof.
  intros Hlen. repeat split.
  - apply mean_squared_error_same_length, Hlen.
  - apply mean_absolute_error_same_length, Hlen.
  - apply mean_squared_error_self. assumption.
  - apply mean_absolute_error_self. assumption.
  - eexists. split; reflexivity.
  - eexists. split; reflexivity.
Qed.

Lemma metrics_mean_of_differences_witness :
  mean_squared_error [1; 3]%Q [2; 5]%Q =
    Ok (mean_of_squared_differences [1; 3]%Q [2; 5]%Q) /\
  returns_number (mean_squared_error [1; 3]%Q [1; 3]%Q) 0 /\
  returns_number (mean_absolute_error [1; 3]%Q [1; 3]%Q) 0.
Proof.
  pose proof (metrics_mean_of_differences [1; 3]%Q [2; 5]%Q eq_refl)
    as [Hmse _].
  pose proof (metrics_mean_of_differences [1; 3]%Q [1; 3]%Q eq_refl)
    as [_ [_ [Hself _]]].
  split; [exact Hmse |].
  apply Hself. discriminate.
Defined.

(** C6, as stated, fails on the empty sequence: the mean of no difference is
    [NaN], which is not equal to 0. *)
Lemma mean_squared_error_empty_not_zero :
  mean_squared_error [] [] = Ok NaN /\
  mean_absolute_error [] [] = Ok NaN /\
  ~ returns_number (mean_squared_error [] []) 0 /\
  ~ returns_number (mean_absolute_error [] []) 0.
Proof.
  repeat split; try reflexivity.
  - intros [x [Hx Heq]]. injection Hx as Hx. subst x. exact Heq.
  - intros [x [Hx Heq]]. injection Hx as Hx. subst x. exact Heq.
Qed.

(** ** Row maxima *)

(** The invariant of the scan: [best] is the position, in the part [pre]
    already scanned, of a greatest element [bv] of that part. *)
Lemma argmax_from_spec (l pre : list Q) (best : nat) (bv : Q) :
  nth_error pre best = Some bv ->
  (forall x, In x pre -> x <= bv)%Q ->
  let r := argmax_from (length pre) best bv l in
  exists m, nth_error (pre ++ l) r = Some m /\
            (forall x, In x (pre ++ l) -> x <= m)%Q.
Proof.
  revert pre best bv.
  induction l as [| x l IH]; intros pre best bv Hbest Hmax; simpl.
  - exists bv. rewrite app_nil_r. split; assumption.
  - destruct (Qle_bool x bv) eqn:Hle.
    + apply Qle_bool_iff in Hle.
      specialize (IH (pre ++ [x]) best bv).
      rewrite length_app, Nat.add_1_r, <- app_assoc in IH. simpl in IH.
      apply IH.
      * rewrite nth_error_app1; [exact Hbest |].
        apply nth_error_Some. rewrite Hbest. discriminate.
      * intros y Hy. apply in_app_or in Hy. destruct Hy as [Hy | [Hy | []]].
        -- apply Hmax, Hy.
        -- subst y. exact Hle.
    + assert (Hlt : (bv < x)%Q).
      { apply Qnot_le_lt. intros H. apply Qle_bool_iff in H.
        rewrite H in Hle. discriminate Hle. }
      specialize (IH (pre ++ [x]) (length pre) x).
      rewrite length_app, Nat.add_1_r, <- app_assoc in IH. simpl in IH.
      apply IH.
      * rewrite nth_error_app2 by apply Nat.le_refl.
        rewrite Nat.sub_diag. reflexivity.
      * intros y Hy. apply in_app_or in Hy. destruct Hy as [Hy | [Hy | []]].
        -- apply Qle_trans with bv; [apply Hmax, Hy |].
           apply Qlt_le_weak, Hlt.
        -- subst y. apply Qle_refl.
Qed.

Lemma argmax_is_max_index (row : list Q) :
  row <> [] -> is_max_index row (argmax row).
Proof.
  destruct row as [| x l]; intros Hrow; [contradiction |].
  destruct (argmax_from_spec l [x] 0 x eq_refl) as [m [Hm Hmax]].
  { intros y [Hy | []]. subst y. apply Qle_refl. }
  simpl in Hm, Hmax. unfold is_max_index, argmax.
  split.
  - apply nth_error_Some. rewrite Hm. discriminate.
  - intros j y Hj. rewrite (nth_error_nth _ _ 0%Q Hm).
    apply Hmax. apply nth_error_In in Hj. exact Hj.
Qed.

(** ** Element-wise comparison *)

Lemma torch_eq_same_length (a b : list Z) :
  length a = length b ->
  exists hits, torch_eq a b = Ok hits /\ sum_item hits = count_equal a b.
Proof.
  intros Hlen. unfold torch_eq, broadcast2.
  rewrite Hlen, Nat.eqb_refl. eexists. split; [reflexivity |].
  revert b Hlen. induction a as [| x a IH]; intros [| y b] Hlen;
    try discriminate Hlen; simpl.
  - reflexivity.
  - injection Hlen as Hlen. unfold sum_item in IH. rewrite <- (IH b Hlen).
    destruct (x =? y); simpl; reflexivity.
Qed.

Lemma count_equal_bound (a b : list Z) : (count_equal a b <= length b)%nat.
Proof.
  revert b. induction a as [| x a IH]; intros [| y b]; simpl; try lia.
  specialize (IH b). destruct (x =? y); lia.
Qed.

Section TaskProperties.

Context {Image St : Type}.

Variable model : FewShotClassifier Image St.

(** ** evaluate_on_one_task *)

Lemma torch_max_dim1_indices_Ok (t : tensor2) :
  (0 < ncols t)%nat ->
  torch_max_dim1_indices t = Ok (map (fun r => Z.of_nat (argmax r)) (rows t)).
Proof.
  intros Hc. unfold torch_max_dim1_indices.
  destruct (Nat.eqb_spec (ncols t) 0) as [H0 | _]; [lia | reflexivity].
Qed.

(** C5. When the classifier adapts to the support set and returns a score
    matrix with one row per query label and at least one class,
    [evaluate_on_one_task] returns four components: the number of positions
    at which the predicted and the true label agree, the length of the
    query-label sequence, the predicted labels and the true labels; the
    predicted label of each query is an index of a greatest score of its
    row. *)
Theorem evaluate_on_one_task_spec (s s1 s2 : St)
    (support_images : list Image) (support_labels : list Z)
    (query_images : list Image) (query_labels : list Z) (scores : tensor2) :
  process_support_set model s support_images support_labels = Ok s1 ->
  forward model s1 query_images = Ok (s2, scores) ->
  well_shaped scores -> (0 < ncols scores)%nat ->
  length (rows scores) = length query_labels ->
  exists predicted,
    evaluate_on_one_task model s support_images support_labels
                         query_images query_labels
    = Ok (s2, (count_equal predicted query_labels, length query_labels,
               predicted, query_labels)) /\
    length predicted = length query_labels /\
    forall i r, nth_error (rows scores) i = Some r ->
      exists p, nth_error predicted i = Some (Z.of_nat p) /\ is_max_index r p.
Proof.
  intros Hpss Hfwd Hshape Hcols Hrows.
  exists (map (fun r => Z.of_nat (argmax r)) (rows scores)).
  assert (Hlen : length (map (fun r => Z.of_nat (argmax r)) (rows scores))
                 = length query_labels).
  { rewrite length_map. exact Hrows. }
  split; [| split].
  - unfold evaluate_on_one_task. rewrite Hpss. simpl. rewrite Hfwd. simpl.
    rewrite (torch_max_dim1_indices_Ok scores Hcols). simpl.
    destruct (torch_eq_same_length _ _ Hlen) as [hits [Hhits Hsum]].
    rewrite Hhits. simpl. rewrite Hsum. reflexivity.
  - exact Hlen.
  - intros i r Hi. exists (argmax r). split.
    + rewrite nth_error_map, Hi. reflexivity.
    + apply argmax_is_max_index.
      unfold well_shaped in Hshape. rewrite Forall_forall in Hshape.
      specialize (Hshape r (nth_error_In _ _ Hi)).
      destruct r; [simpl in Hshape; lia | discriminate].
Qed.

(** C9. Whenever [evaluate_on_one_task] returns, its fourth component is
    the [query_labels] it was given. *)
Theorem evaluate_on_one_task_query_labels (s s' : St)
    (support_images : list Image) (support_labels : list Z)
    (query_images : list Image) (query_labels : list Z)
    (correct total : nat) (predicted returned_labels : list Z) :
  evaluate_on_one_task model s support_images support_labels
                       query_images query_labels
  = Ok (s', (correct, total, predicted, returned_labels)) ->
  returned_labels = query_labels.
Proof.
  unfold evaluate_on_one_task. intros H.
  inv_bind H as s1 Hpss. inv_bind H as fwd Hfwd.
  destruct fwd as [s2 predictions].
  inv_bind H as indices Hidx. inv_bind H as hits Hhits.
  inv_bind H as predicted_labels Hpred.
  injection H as _ _ _ _ Hl. symmetry. exact Hl.
Qed.

(** The total that [evaluate_on_one_task] returns is the number of query
    labels. *)
Lemma evaluate_on_one_task_total (s s' : St)
    (support_images : list Image) (support_labels : list Z)
    (query_images : list Image) (query_labels : list Z)
    (correct total : nat) (predicted returned_labels : list Z) :
  evaluate_on_one_task model s support_images support_labels
                       query_images query_labels
  = Ok (s', (correct, total, predicted, returned_labels)) ->
  total = length query_labels.
Proof.
  unfold evaluate_on_one_task. intros H.
  inv_bind H as s1 Hpss. inv_bind H as fwd Hfwd.
  destruct fwd as [s2 predictions].
  inv_bind H as indices Hidx. inv_bind H as hits Hhits.
  inv_bind H as predicted_labels Hpred.
  injection H as _ _ Ht _ _. symmetry. exact Ht.
Qed.

End TaskProperties.

Lemma evaluate_on_one_task_spec_witness :
  exists predicted,
    evaluate_on_one_task Toy.classifier 0%nat [0; 1] [0; 1] [0; 1] [0; 0]
    = Ok (1%nat, (count_equal predicted [0; 0], 2%nat, predicted, [0; 0])) /\
    length predicted = 2%nat /\
    forall i r, nth_error (map Toy.score [0; 1]) i = Some r ->
      exists p, nth_error predicted i = Some (Z.of_nat p) /\ is_max_index r p.
Proof.
  apply (evaluate_on_one_task_spec Toy.classifier 0%nat 1%nat 1%nat
           [0; 1] [0; 1] [0; 1] [0; 0] (mkTensor2 2 (map Toy.score [0; 1]))).
  - reflexivity.
  - reflexivity.
  - repeat constructor.
  - simpl. lia.
  - reflexivity.
Defined.

Lemma evaluate_on_one_task_query_labels_witness :
  evaluate_on_one_task Toy.classifier 0%nat [0; 1] [0; 1] [0; 1] [0; 0]
  = Ok (1%nat, (1%nat, 2%nat, [0; 1], [0; 0])) /\
  [0; 0] = [0; 0].
Proof.
  split; [reflexivity |].
  apply (evaluate_on_one_task_query_labels Toy.classifier 0%nat 1%nat
           [0; 1] [0; 1] [0; 1] [0; 0] 1%nat 2%nat [0; 1] [0; 0]).
  reflexivity.
Defined.

(** ** Division *)


Lemma true_div_zero (c : nat) :
  true_div (Z.of_nat c) (Z.of_nat 0) = Raise ZeroDivisionError.
Proof. reflexivity. Qed.

Section EvaluateProperties.

Context {Image St F1 : Type}.

Variable model : FewShotClassifier Image St.

Variable f1_score : list Z -> list Z -> result F1.

(** ** One turn of the loop *)

Lemma accumulate_Ok (r : run St F1) (ep : episode Image) (s' : St)
    (correct total : nat) (predicted labels : list Z) :
  evaluate_on_one_task model (classifier r)
    (support_images ep) (support_labels ep) (query_images ep) (query_labels ep)
  = Ok (s', (correct, total, predicted, labels)) ->
  exists r',
    accumulate model r ep = Ok r' /\
    total_predictions r' = (total_predictions r + total)%nat /\
    correct_predictions r' = (correct_predictions r + correct)%nat /\
    predictions_all r' = predictions_all r ++ predicted /\
    query_labels_all r' = query_labels_all r ++ labels /\
    classifier r' = s'.
Proof.
  intros H. unfold accumulate. rewrite H. simpl.
  eexists. split; [reflexivity |]. simpl. repeat split; reflexivity.
Qed.

Lemma accumulate_inv (r r' : run St F1) (ep : episode Image) :
  accumulate model r ep = Ok r' ->
  exists s' correct total predicted labels,
    evaluate_on_one_task model (classifier r)
      (support_images ep) (support_labels ep)
      (query_images ep) (query_labels ep)
    = Ok (s', (correct, total, predicted, labels)) /\
    total_predictions r' = (total_predictions r + total)%nat /\
    correct_predictions r' = (correct_predictions r + correct)%nat.
Proof.
  unfold accumulate. intros H. inv_bind H as res Hres.
  destruct res as [s' [[[correct total] predicted] labels]].
  injection H as H. subst r'. simpl.
  exists s', correct, total, predicted, labels.
  split; [exact Hres | split; reflexivity].
Qed.


Lemma evaluate_episode_inv (r r2 : run St F1) (ep : episode Image) :
  evaluate_episode model r ep = Ok r2 ->
  exists r1,
    accumulate model r ep = Ok r1 /\
    total_predictions r2 = total_predictions r1 /\
    correct_predictions r2 = correct_predictions r1.
Proof.
  unfold evaluate_episode. intros H.
  inv_bind H as r1 Hacc. inv_bind H as accuracy Hdiv.
  injection H as H. subst r2. simpl.
  exists r1. repeat split. exact Hacc.
Qed.

(** With no prediction counted after the update, the running accuracy is a
    division by zero. *)
Lemma evaluate_episode_zero (r r1 : run St F1) (ep : episode Image) :
  accumulate model r ep = Ok r1 ->
  total_predictions r1 = 0%nat ->
  evaluate_episode model r ep = Raise ZeroDivisionError.
Proof.
  intros Hacc H0. unfold evaluate_episode. rewrite Hacc. simpl.
  rewrite H0. reflexivity.
Qed.

(** ** The loop *)




Lemma In_firstn {A : Type} (k : nat) (l : list A) (x : A) :
  In x (firstn k l) -> In x l.
Proof.
  intros H. rewrite <- (firstn_skipn k l). apply in_or_app. left. exact H.
Qed.

(** The bound on the counters is kept by the update of one turn. *)
Lemma accumulate_invariant (r r' : run St F1) (ep : episode Image) :
  (forall st s' correct total predicted labels,
     evaluate_on_one_task model st
       (support_images ep) (support_labels ep)
       (query_images ep) (query_labels ep)
     = Ok (s', (correct, total, predicted, labels)) ->
     (correct <= total)%nat) ->
  (correct_predictions r <= total_predictions r)%nat ->
  accumulate model r ep = Ok r' ->
  (correct_predictions r' <= total_predictions r')%nat.
Proof.
  intros Hmodel Hinv Hacc.
  destruct (accumulate_inv r r' ep Hacc)
    as [s' [correct [total [predicted [labels [Hres [Ht Hc]]]]]]].
  specialize (Hmodel _ _ _ _ _ _ Hres). lia.
Qed.

Lemma evaluate_episodes_invariant (data_loader : list (episode Image)) :
  (forall ep, In ep data_loader ->
   forall st s' correct total predicted labels,
     evaluate_on_one_task model st
       (support_images ep) (support_labels ep)
       (query_images ep) (query_labels ep)
     = Ok (s', (correct, total, predicted, labels)) ->
     (correct <= total)%nat) ->
  forall r r' : run St F1,
    (correct_predictions r <= total_predictions r)%nat ->
    evaluate_episodes model r data_loader = Ok r' ->
    (correct_predictions r' <= total_predictions r')%nat.
Proof.
  induction data_loader as [| ep rest IH]; intros Hmodel r r' Hinv Hrun;
    simpl in Hrun.
  - injection Hrun as Hrun. subst r'. exact Hinv.
  - inv_bind Hrun as r2 Hstep.
    destruct (evaluate_episode_inv r r2 ep Hstep) as [r1 [Hacc [Ht Hc]]].
    apply (IH (fun e He => Hmodel e (or_intror He)) r2 r'); [| exact Hrun].
    rewrite Ht, Hc.
    apply (accumulate_invariant r r1 ep (Hmodel ep (or_introl eq_refl)) Hinv Hacc).
Qed.

(** ** evaluate *)

(** C2. With a classifier for which the single-task evaluator never counts
    more correct predictions than queries on the episodes of the run, the
    running counters satisfy [correct_predictions <= total_predictions]
    after every episode of the run: in the state the loop has reached after
    any number [k] of episodes, and right after the counters are updated for
    the next one. *)
Theorem running_counts_invariant (s : St) (data_loader : list (episode Image)) :
  (forall ep, In ep data_loader ->
   forall st s' correct total predicted labels,
     evaluate_on_one_task model st
       (support_images ep) (support_labels ep)
       (query_images ep) (query_labels ep)
     = Ok (s', (correct, total, predicted, labels)) ->
     (correct <= total)%nat) ->
  forall (k : nat) (r : run St F1),
    evaluate_episodes model (initial_run model s) (firstn k data_loader) = Ok r ->
    (correct_predictions r <= total_predictions r)%nat /\
    forall ep r',
      nth_error data_loader k = Some ep ->
      accumulate model r ep = Ok r' ->
      (correct_predictions r' <= total_predictions r')%nat.
Proof.
  intros Hmodel k r Hrun.
  assert (Hinv : (correct_predictions r <= total_predictions r)%nat).
  { apply (evaluate_episodes_invariant (firstn k data_loader))
      with (r := initial_run model s); [| simpl; lia | exact Hrun].
    intros ep Hin. apply Hmodel. apply (In_firstn k), Hin. }
  split; [exact Hinv |].
  intros ep r' Hk Hacc.
  apply (accumulate_invariant r r' ep); [| exact Hinv | exact Hacc].
  apply Hmodel. apply (nth_error_In _ _ Hk).
Qed.



End EvaluateProperties.

(** *** Examples of runs *)

(** One episode with two queries, predicted [0; 1] against the true labels
    [0; 0]: one correct out of two, a running accuracy of one half. *)
Example evaluate_half_right :
  exists r,
    evaluate Toy.classifier Toy.f1_score 0%nat [Toy.half_right]
    = Ok (ratio 1 2, r) /\
    correct_predictions r = 1%nat /\ total_predictions r = 2%nat /\
    predictions_all r = [0; 1] /\ query_labels_all r = [0; 0] /\
    In (SetPostfix (ratio 1 2)) (stdout r) /\
    (ratio 1 2 == 1 # 2)%Q.
Proof.
  eexists. split; [reflexivity |]. simpl.
  repeat split; try reflexivity. auto 10.
Qed.

Lemma running_counts_invariant_witness :
  exists r : run nat unit,
    evaluate_episodes Toy.classifier (initial_run Toy.classifier 0%nat)
      (firstn 1 [Toy.half_right; Toy.all_right]) = Ok r /\
    correct_predictions r = 1%nat /\ total_predictions r = 2%nat /\
    (correct_predictions r <= total_predictions r)%nat /\
    forall ep r',
      nth_error [Toy.half_right; Toy.all_right] 1 = Some ep ->
      accumulate Toy.classifier r ep = Ok r' ->
      (correct_predictions r' <= total_predictions r')%nat.
Proof.
  eexists. split; [reflexivity |].
  split; [reflexivity |]. split; [reflexivity |].
  apply (running_counts_invariant Toy.classifier 0%nat
           [Toy.half_right; Toy.all_right]) with (k := 1%nat).
  - intros ep [<- | [<- | []]] st s' correct total predicted labels H;
      cbv in H; injection H as _ Hc Ht _ _; subst correct total; lia.
  - reflexivity.
Defined.




(** ** predict_embeddings *)

Lemma combine_append {A B : Type} (l1 l2 : list A) (m1 m2 : list B) :
  length l1 = length m1 ->
  combine (l1 ++ l2) (m1 ++ m2) = combine l1 m1 ++ combine l2 m2.
Proof.
  revert m1. induction l1 as [| x l1 IH]; intros [| y m1] Hlen;
    try discriminate Hlen; simpl.
  - reflexivity.
  - f_equal. apply IH. injection Hlen as Hlen. exact Hlen.
Qed.

Lemma torch_cat_Ok (d : nat) (tensors : list tensor2) :
  tensors <> [] ->
  Forall (fun t => ncols t = d) tensors ->
  torch_cat tensors = Ok (mkTensor2 d (concat (map rows tensors))).
Proof.
  intros Hne Hd. destruct tensors as [| t rest]; [contradiction |].
  unfold torch_cat.
  assert (Ht : ncols t = d) by (inversion Hd; assumption).
  replace (forallb (fun u => Nat.eqb (ncols u) (ncols t)) (t :: rest))
    with true.
  - rewrite Ht. reflexivity.
  - symmetry. apply forallb_forall. intros u Hu.
    rewrite Forall_forall in Hd. rewrite (Hd u Hu), Ht.
    apply Nat.eqb_refl.
Qed.

Section PredictEmbeddingsProperties.

Context {Image Label : Type}.

Variable model : list Image -> result tensor2.

(** One turn of the loop on a well-formed batch: whichever way the labels
    come, the embeddings of the batch and its labels are appended. *)
Lemma embed_batch_Ok (d : nat) (b : @batch Image Label)
    (all_embeddings : list tensor2) (all_class_names : list Label) :
  batch_ok model d b ->
  exists e,
    model (fst b) = Ok e /\
    embed_batch model (all_embeddings, all_class_names) b
    = Ok (all_embeddings ++ [e], all_class_names ++ batch_labels (snd b)).
Proof.
  intros [e [He _]]. exists e. split; [exact He |].
  destruct b as [images class_names]. simpl in *.
  rewrite He. simpl. destruct class_names; reflexivity.
Qed.

Lemma embed_batches_Ok (d : nat) (dataloader : list (@batch Image Label)) :
  Forall (batch_ok model d) dataloader ->
  forall (all_embeddings : list tensor2) (all_class_names : list Label),
  exists es,
    embed_batches model (all_embeddings, all_class_names) dataloader
    = Ok (all_embeddings ++ es,
          all_class_names ++
          concat (map (fun b => batch_labels (snd b)) dataloader)) /\
    length es = length dataloader /\
    Forall (fun e => ncols e = d /\ well_shaped e) es /\
    combine (concat (map rows es))
            (concat (map (fun b => batch_labels (snd b)) dataloader))
    = all_elements model dataloader /\
    length (concat (map rows es)) = total_elements dataloader /\
    length (concat (map (fun b => batch_labels (snd b)) dataloader))
    = total_elements dataloader.
Proof.
  induction 1 as [| b rest Hb _ IH]; intros all_embeddings all_class_names.
  - exists []. simpl. rewrite !app_nil_r. repeat split. constructor.
  - destruct (embed_batch_Ok d b all_embeddings all_class_names Hb)
      as [e [He Hstep]].
    destruct Hb as [e' [He' [Hrows [Hcols [Hshape Hlabels]]]]].
    rewrite He in He'. injection He' as <-.
    destruct (IH (all_embeddings ++ [e])
                 (all_class_names ++ batch_labels (snd b)))
      as [es [Hrun [Hlen [Hes [Hcomb [Hr Hl]]]]]].
    exists (e :: es). cbn [embed_batches]. rewrite Hstep. cbn [bind].
    rewrite Hrun.
    rewrite <- !app_assoc. simpl.
    split; [reflexivity |]. split; [rewrite Hlen; reflexivity |].
    split; [constructor; [split; assumption | exact Hes] |].
    unfold all_elements, total_elements in *. simpl.
    rewrite combine_append by (rewrite Hrows, Hlabels; reflexivity).
    rewrite Hcomb, !length_app, Hr, Hl, Hrows, Hlabels.
    unfold batch_elements, batch_size. rewrite He.
    repeat split; reflexivity.
Qed.

(** C8, as the code has it. For a data source with at least one batch, a
    feature extractor that gives one embedding of dimension [d] per image and
    batches with one label per image, [predict_embeddings] returns a table
    with one row per element of the source (the sum of the batch sizes); the
    rows hold, in order, each element's embedding and its label, and every
    embedding has dimension [d].  The labels of a batch may come as a tensor
    or as a plain sequence. *)
Theorem predict_embeddings_table (d : nat)
    (dataloader : list (@batch Image Label)) :
  dataloader <> [] ->
  Forall (batch_ok model d) dataloader ->
  exists table,
    predict_embeddings model dataloader = Ok table /\
    length table = total_elements dataloader /\
    map (fun r => (embedding r, class_name r)) table
    = all_elements model dataloader /\
    Forall (fun r => length (embedding r) = d) table.
Proof.
  intros Hne Hok.
  destruct (embed_batches_Ok d dataloader Hok [] [])
    as [es [Hrun [Hlen [Hes [Hcomb [Hr Hl]]]]]].
  simpl in Hrun.
  assert (Hcat : torch_cat es = Ok (mkTensor2 d (concat (map rows es)))).
  { apply torch_cat_Ok.
    - intros Hnil. subst es. destruct dataloader; [contradiction | discriminate].
    - apply Forall_impl with (2 := Hes). intros e [He _]. exact He. }
  unfold predict_embeddings. rewrite Hrun. simpl. rewrite Hcat. simpl.
  unfold DataFrame. rewrite Hr, Hl, Nat.eqb_refl.
  eexists. split; [reflexivity |].
  split; [| split].
  - rewrite length_map, length_combine, Hr, Hl. apply Nat.min_id.
  - rewrite map_map. simpl. rewrite <- Hcomb.
    rewrite (map_ext _ (fun p => p)) by (intros [x y]; reflexivity).
    apply map_id.
  - apply Forall_map. simpl. apply Forall_forall. intros [x y] Hin. simpl.
    apply in_combine_l in Hin. apply in_concat in Hin.
    destruct Hin as [rs [Hrs Hx]]. apply in_map_iff in Hrs.
    destruct Hrs as [e [<- He]].
    rewrite Forall_forall in Hes. destruct (Hes e He) as [Hcols Hshape].
    unfold well_shaped in Hshape. rewrite Forall_forall in Hshape.
    rewrite (Hshape x Hx). exact Hcols.
Qed.

End PredictEmbeddingsProperties.

Lemma predict_embeddings_table_witness :
  exists table,
    predict_embeddings Toy.extractor Toy.three_batches = Ok table /\
    length table = 6%nat /\
    map (fun r => (embedding r, class_name r)) table
    = all_elements Toy.extractor Toy.three_batches /\
    Forall (fun r => length (embedding r) = 4%nat) table.
Proof.
  apply (predict_embeddings_table Toy.extractor 4 Toy.three_batches).
  - discriminate.
  - repeat constructor;
      (eexists; split; [reflexivity |]; repeat split; repeat constructor).
Defined.

(** C8, as stated, fails on a data source with no batch: there is nothing
    for [torch.cat] to concatenate, and it raises. *)
Lemma predict_embeddings_no_batch :
  predict_embeddings Toy.extractor (@nil (@batch Z Z))
  = Raise (RuntimeError "torch.cat(): expected a non-empty list of Tensors") /\
  ~ returns (predict_embeddings Toy.extractor (@nil (@batch Z Z))).
Proof.
  split; [reflexivity |].
  intros [table H]. discriminate H.
Qed.

(* ================================================================== *)
(** * Further properties *)

(** ** Means *)









(** ** sliding_average *)



(** ** Broadcasting *)

Lemma combine_swap_map {A B C : Type} (f : A -> B -> C)
    (xs : list A) (ys : list B) :
  map (fun p => f (snd p) (fst p)) (combine ys xs) =
  map (fun p => f (fst p) (snd p)) (combine xs ys).
Proof.
  revert ys. induction xs as [| x xs IH]; intros [| y ys]; simpl;
    try reflexivity.
  f_equal. apply IH.
Qed.

(** Exchanging the operands of a broadcast operation exchanges the
    arguments of the function applied. *)
Lemma broadcast2_swap {A B C : Type} (err : exn) (f : A -> B -> C)
    (xs : list A) (ys : list B) :
  broadcast2 err (fun y x => f x y) ys xs = broadcast2 err f xs ys.
Proof.
  unfold broadcast2. rewrite (Nat.eqb_sym (length ys) (length xs)).
  destruct (Nat.eqb_spec (length xs) (length ys)) as [Heq | Hne].
  - f_equal. apply combine_swap_map.
  - destruct xs as [| x [| x' xs]], ys as [| y [| y' ys]];
      try reflexivity; simpl in Hne; lia.
Qed.

(** A function applied to every element of the result can be applied
    inside the operation. *)
Lemma broadcast2_map {A B C D : Type} (err : exn) (f : A -> B -> C)
    (g : C -> D) (xs : list A) (ys : list B) :
  bind (broadcast2 err f xs ys) (fun l => Ok (map g l)) =
  broadcast2 err (fun x y => g (f x y)) xs ys.
Proof.
  unfold broadcast2.
  destruct (Nat.eqb (length xs) (length ys)).
  - simpl. rewrite map_map. reflexivity.
  - destruct xs as [| x [| x' xs]], ys as [| y [| y' ys]]; simpl;
      try reflexivity; rewrite map_map; reflexivity.
Qed.

(** Two functions related at every pair of arguments give results related
    element by element, and raise together. *)
Lemma broadcast2_rel {A B C : Type} (R : C -> C -> Prop) (err : exn)
    (f g : A -> B -> C) (xs : list A) (ys : list B) :
  (forall x y, R (f x y) (g x y)) ->
  match broadcast2 err f xs ys, broadcast2 err g xs ys with
  | Ok l, Ok l' => Forall2 R l l'
  | Raise e, Raise e' => e = e'
  | _, _ => False
  end.
Proof.
  intros HR.
  assert (Hmap : forall (T : Type) (h h' : T -> C) (l : list T),
            (forall t, R (h t) (h' t)) -> Forall2 R (map h l) (map h' l)).
  { intros T h h' l Hh. induction l; simpl; constructor; auto. }
  unfold broadcast2.
  destruct (Nat.eqb (length xs) (length ys)).
  - apply Hmap. intros [x y]. apply HR.
  - destruct xs as [| x [| x' xs]], ys as [| y [| y' ys]];
      try reflexivity; apply Hmap; intros t; apply HR.
Qed.

(** The operation returns when the lengths are equal or one of them is 1;
    otherwise it raises the given exception. *)
Lemma broadcast2_returns {A B C : Type} (err : exn) (f : A -> B -> C)
    (xs : list A) (ys : list B) :
  (length xs = length ys \/ length xs = 1 \/ length ys = 1)%nat ->
  returns (broadcast2 err f xs ys).
Proof.
  intros H. unfold broadcast2, returns.
  destruct (Nat.eqb_spec (length xs) (length ys)) as [Heq | Hne].
  - eexists. reflexivity.
  - destruct xs as [| x [| x' xs]], ys as [| y [| y' ys]];
      simpl in *; try lia; eexists; reflexivity.
Qed.

Lemma broadcast2_raises {A B C : Type} (err : exn) (f : A -> B -> C)
    (xs : list A) (ys : list B) :
  length xs <> length ys -> length xs <> 1%nat -> length ys <> 1%nat ->
  broadcast2 err f xs ys = Raise err.
Proof.
  intros Hne Hx Hy. unfold broadcast2.
  destruct (Nat.eqb_spec (length xs) (length ys)) as [Heq | _];
    [contradiction |].
  destruct xs as [| x [| x' xs]], ys as [| y [| y' ys]];
    simpl in *; try reflexivity; lia.
Qed.

Lemma Qsum_Forall2_eq (l l' : list Q) :
  Forall2 Qeq l l' -> (Qsum l == Qsum l')%Q.
Proof.
  induction 1 as [| x y l l' Hxy _ IH]; simpl.
  - reflexivity.
  - rewrite Hxy, IH. reflexivity.
Qed.


Lemma Forall2_same_length {A : Type} (R : A -> A -> Prop) (l l' : list A) :
  Forall2 R l l' -> length l = length l'.
Proof.
  induction 1; simpl; [reflexivity | f_equal; assumption].
Qed.

Lemma np_mean_Forall2_eq (l l' : list Q) :
  Forall2 Qeq l l' -> npfloat_same (np_mean l) (np_mean l').
Proof.
  intros H. assert (Hsum := Qsum_Forall2_eq l l' H).
  assert (Hlen := Forall2_same_length _ l l' H).
  destruct H as [| x y l l' Hxy H]; simpl; [exact I |].
  unfold len. rewrite Hlen. simpl in Hsum. rewrite Hsum. reflexivity.
Qed.


(** The two metrics as one broadcast operation followed by a mean. *)
Lemma mean_squared_error_broadcast (a b : list Q) :
  mean_squared_error a b =
  bind (broadcast2 (ValueError "operands could not be broadcast together")
                   (fun x y => (x - y) ^ 2)%Q a b)
       (fun l => Ok (np_mean l)).
Proof.
  unfold mean_squared_error, np_sub, np_square.
  rewrite <- (broadcast2_map _ Qminus (fun d => d ^ 2)%Q).
  destruct (broadcast2 _ Qminus a b); reflexivity.
Qed.

Lemma mean_absolute_error_broadcast (a b : list Q) :
  mean_absolute_error a b =
  bind (broadcast2 (ValueError "operands could not be broadcast together")
                   (fun x y => Qabs (x - y)) a b)
       (fun l => Ok (np_mean l)).
Proof.
  unfold mean_absolute_error, np_sub, np_abs.
  rewrite <- (broadcast2_map _ Qminus Qabs).
  destruct (broadcast2 _ Qminus a b); reflexivity.
Qed.

(** ** mean_squared_error, mean_absolute_error on any two arrays *)

(** X2. Both metrics are symmetric: exchanging [y_true] and [y_pred] gives
    the same float, or the same exception, on arrays of any lengths. *)
Theorem metrics_symmetric (a b : list Q) :
  same_outcome (mean_squared_error a b) (mean_squared_error b a) /\
  same_outcome (mean_absolute_error a b) (mean_absolute_error b a).
Proof.
  split.
  - rewrite !mean_squared_error_broadcast.
    rewrite <- (broadcast2_swap _ (fun x y => (x - y) ^ 2)%Q b a).
    pose proof (broadcast2_rel Qeq
      (ValueError "operands could not be broadcast together")
      (fun x y => (x - y) ^ 2)%Q (fun y x => (x - y) ^ 2)%Q a b) as H.
    destruct (broadcast2 _ (fun x y => (x - y) ^ 2)%Q a b),
             (broadcast2 _ (fun y x => (x - y) ^ 2)%Q a b); simpl;
      try (apply H; intros x y; simpl; ring).
    apply np_mean_Forall2_eq. apply H. intros x y. simpl. ring.
  - rewrite !mean_absolute_error_broadcast.
    rewrite <- (broadcast2_swap _ (fun x y => Qabs (x - y)) b a).
    pose proof (broadcast2_rel Qeq
      (ValueError "operands could not be broadcast together")
      (fun x y => Qabs (x - y)) (fun y x => Qabs (x - y)) a b) as H.
    destruct (broadcast2 _ (fun x y => Qabs (x - y)) a b),
             (broadcast2 _ (fun y x => Qabs (x - y)) a b); simpl;
      try (apply H; intros x y; rewrite Qabs_Qminus; reflexivity).
    apply np_mean_Forall2_eq. apply H. intros x y.
    rewrite Qabs_Qminus. reflexivity.
Qed.





(** X4. Arrays whose lengths differ, neither of them being 1, make both
    metrics raise numpy's [ValueError]; in every other case both return. *)
Theorem metrics_length_mismatch (a b : list Q) :
  (length a <> length b -> length a <> 1%nat -> length b <> 1%nat ->
   mean_squared_error a b =
     Raise (ValueError "operands could not be broadcast together") /\
   mean_absolute_error a b =
     Raise (ValueError "operands could not be broadcast together")) /\
  ((length a = length b \/ length a = 1 \/ length b = 1)%nat ->
   returns (mean_squared_error a b) /\ returns (mean_absolute_error a b)).
Proof.
  split.
  - intros Hne Ha Hb.
    unfold mean_squared_error, mean_absolute_error, np_sub.
    rewrite (broadcast2_raises _ _ a b Hne Ha Hb). split; reflexivity.
  - intros H.
    destruct (broadcast2_returns
                (ValueError "operands could not be broadcast together")
                Qminus a b H) as [d Hd].
    unfold mean_squared_error, mean_absolute_error, np_sub.
    rewrite Hd. split; eexists; reflexivity.
Qed.

Lemma metrics_length_mismatch_witness :
  mean_squared_error [1; 2; 3]%Q [1; 2]%Q =
    Raise (ValueError "operands could not be broadcast together") /\
  returns (mean_absolute_error [1; 2; 3]%Q [4]%Q).
Proof.
  split.
  - apply (metrics_length_mismatch [1; 2; 3]%Q [1; 2]%Q); simpl; lia.
  - apply (metrics_length_mismatch [1; 2; 3]%Q [4]%Q). simpl. lia.
Defined.

(** X5. An array of one element is silently stretched: against [[c]] the
    metrics average the squared, or absolute, differences between [c] and
    every element of the other array, whatever its length. *)
Theorem metrics_one_element (c : Q) (b : list Q) :
  mean_squared_error [c] b = Ok (np_mean (map (fun y => (c - y) ^ 2)%Q b)) /\
  mean_absolute_error b [c] = Ok (np_mean (map (fun y => Qabs (y - c)) b)).
Proof.
  split.
  - rewrite mean_squared_error_broadcast.
    destruct b as [| y [| y' b]]; reflexivity.
  - rewrite mean_absolute_error_broadcast.
    destruct b as [| y [| y' b]]; reflexivity.
Qed.










(** ** evaluate_on_one_task beyond its contract *)

Lemma sum_item_against_one (predicted : list Z) (y : Z) :
  sum_item (map (fun x => x =? y) predicted) = count_occ Z.eq_dec predicted y.
Proof.
  unfold sum_item. induction predicted as [| x predicted IH]; simpl.
  - reflexivity.
  - destruct (Z.eqb_spec x y) as [Heq | Hne];
      destruct (Z.eq_dec x y) as [Heq' | Hne']; try contradiction;
      simpl; rewrite IH; reflexivity.
Qed.

Lemma torch_eq_one_label (predicted : list Z) (y : Z) :
  torch_eq predicted [y] = Ok (map (fun x => x =? y) predicted).
Proof.
  unfold torch_eq, broadcast2.
  destruct predicted as [| x [| x' predicted]]; reflexivity.
Qed.

Section TaskFurtherProperties.

Context {Image St : Type}.

Variable model : FewShotClassifier Image St.

(** What [evaluate_on_one_task] has computed when it returns. *)
Lemma evaluate_on_one_task_inv (s s' : St)
    (support_images : list Image) (support_labels : list Z)
    (query_images : list Image) (query_labels : list Z)
    (correct total : nat) (predicted labels : list Z) :
  evaluate_on_one_task model s support_images support_labels
                       query_images query_labels
  = Ok (s', (correct, total, predicted, labels)) ->
  exists s1 scores hits,
    process_support_set model s support_images support_labels = Ok s1 /\
    forward model s1 query_images = Ok (s', scores) /\
    torch_max_dim1_indices scores = Ok predicted /\
    torch_eq predicted query_labels = Ok hits /\
    correct = sum_item hits /\
    total = length query_labels /\ labels = query_labels.
Proof.
  unfold evaluate_on_one_task. intros H.
  inv_bind H as s1 Hpss. inv_bind H as fwd Hfwd.
  destruct fwd as [s2 scores].
  inv_bind H as indices Hidx. inv_bind H as hits Hhits.
  inv_bind H as predicted_labels Hpred.
  rewrite Hidx in Hpred. injection Hpred as ->.
  injection H as -> <- <- <- <-.
  exists s1, scores, hits. repeat split; assumption.
Qed.

(** The correct count against the returned sequences. *)
Lemma evaluate_on_one_task_count (s s' : St)
    (support_images : list Image) (support_labels : list Z)
    (query_images : list Image) (query_labels : list Z)
    (correct total : nat) (predicted labels : list Z) :
  evaluate_on_one_task model s support_images support_labels
                       query_images query_labels
  = Ok (s', (correct, total, predicted, labels)) ->
  length predicted = length labels ->
  correct = count_equal predicted labels /\ total = length labels.
Proof.
  intros H Hlen.
  destruct (evaluate_on_one_task_inv _ _ _ _ _ _ _ _ _ _ H)
    as [s1 [scores [hits [_ [_ [_ [Hhits [Hc [Ht Hl]]]]]]]]].
  subst labels total correct.
  destruct (torch_eq_same_length predicted query_labels Hlen)
    as [hits' [Hhits' Hsum]].
  rewrite Hhits in Hhits'. injection Hhits' as <-.
  rewrite Hsum. split; reflexivity.
Qed.

(** X8. When [evaluate_on_one_task] returns as many predictions as there
    are query labels, the number of correct predictions it returns is the
    number of positions at which predictions and labels agree, and it is at
    most the total it returns. *)
Theorem evaluate_on_one_task_correct_bound (s s' : St)
    (support_images : list Image) (support_labels : list Z)
    (query_images : list Image) (query_labels : list Z)
    (correct total : nat) (predicted labels : list Z) :
  evaluate_on_one_task model s support_images support_labels
                       query_images query_labels
  = Ok (s', (correct, total, predicted, labels)) ->
  length predicted = length labels ->
  correct = count_equal predicted labels /\ (correct <= total)%nat.
Proof.
  intros H Hlen.
  destruct (evaluate_on_one_task_count _ _ _ _ _ _ _ _ _ _ H Hlen)
    as [Hc Ht].
  split; [exact Hc |]. rewrite Hc, Ht. apply count_equal_bound.
Qed.

(** X9. With a single query label the comparison is broadcast: whatever
    the number of rows of the score matrix, the evaluator returns a total
    of 1 and, as correct predictions, the number of rows whose prediction is
    that label. *)
Theorem evaluate_on_one_task_one_label (s s1 s2 : St)
    (support_images : list Image) (support_labels : list Z)
    (query_images : list Image) (y : Z) (scores : tensor2) :
  process_support_set model s support_images support_labels = Ok s1 ->
  forward model s1 query_images = Ok (s2, scores) ->
  (0 < ncols scores)%nat ->
  exists predicted,
    evaluate_on_one_task model s support_images support_labels
                         query_images [y]
    = Ok (s2, (count_occ Z.eq_dec predicted y, 1%nat, predicted, [y])) /\
    length predicted = length (rows scores).
Proof.
  intros Hpss Hfwd Hcols.
  exists (map (fun r => Z.of_nat (argmax r)) (rows scores)).
  split; [| apply length_map].
  unfold evaluate_on_one_task. rewrite Hpss. simpl. rewrite Hfwd. simpl.
  rewrite (torch_max_dim1_indices_Ok scores Hcols). simpl.
  rewrite torch_eq_one_label. simpl.
  rewrite sum_item_against_one. reflexivity.
Qed.


End TaskFurtherProperties.

Lemma evaluate_on_one_task_correct_bound_witness :
  1%nat = count_equal [0; 1] [0; 0] /\ (1 <= 2)%nat.
Proof.
  apply (evaluate_on_one_task_correct_bound Toy.classifier 0%nat 1%nat
           [0; 1] [0; 1] [0; 1] [0; 0] 1%nat 2%nat [0; 1] [0; 0]);
    reflexivity.
Defined.

(** Three queries against one label: three correct predictions out of a
    total of one. *)
Lemma evaluate_on_one_task_one_label_witness :
  exists predicted,
    evaluate_on_one_task Toy.classifier 0%nat [0; 1] [0; 1] [0; 0; 0] [0]
    = Ok (1%nat, (count_occ Z.eq_dec predicted 0, 1%nat, predicted, [0])) /\
    length predicted = 3%nat.
Proof.
  apply (evaluate_on_one_task_one_label Toy.classifier 0%nat 1%nat 1%nat
           [0; 1] [0; 1] [0; 0; 0] 0 (mkTensor2 2 (map Toy.score [0; 0; 0]))).
  - reflexivity.
  - reflexivity.
  - simpl. lia.
Defined.


(** ** evaluate: the collected arrays and the accuracy *)

Lemma count_equal_app (a b c d : list Z) :
  length a = length c ->
  count_equal (a ++ b) (c ++ d) = (count_equal a c + count_equal b d)%nat.
Proof.
  revert c. induction a as [| x a IH]; intros [| y c] Hlen;
    try discriminate Hlen; simpl.
  - reflexivity.
  - injection Hlen as Hlen. rewrite (IH c Hlen). lia.
Qed.

Lemma true_div_inv (c t : nat) (q : Q) :
  true_div (Z.of_nat c) (Z.of_nat t) = Ok q -> (0 < t)%nat /\ q = ratio c t.
Proof.
  unfold true_div. destruct (Z.eqb_spec (Z.of_nat t) 0) as [H0 | Hne];
    intros H; [discriminate H |].
  injection H as <-. split; [lia | reflexivity].
Qed.

Lemma ratio_unit_interval (c t : nat) :
  (0 < t)%nat -> (c <= t)%nat -> (0 <= ratio c t <= 1)%Q.
Proof.
  intros Ht Hc. unfold ratio.
  assert (Hpos : (0 < inject_Z (Z.of_nat t))%Q).
  { change 0%Q with (inject_Z 0). rewrite <- Zlt_Qlt. lia. }
  split.
  - apply Qle_shift_div_l; [exact Hpos |]. rewrite Qmult_0_l.
    change 0%Q with (inject_Z 0). rewrite <- Zle_Qle. lia.
  - apply Qle_shift_div_r; [exact Hpos |]. rewrite Qmult_1_l.
    rewrite <- Zle_Qle. lia.
Qed.

Section EvaluateFurtherProperties.

Context {Image St F1 : Type}.

Variable model : FewShotClassifier Image St.

Variable f1_score : list Z -> list Z -> result F1.

Lemma accumulate_full_inv (r r' : run St F1) (ep : episode Image) :
  accumulate model r ep = Ok r' ->
  exists s' correct total predicted labels,
    evaluate_on_one_task model (classifier r)
      (support_images ep) (support_labels ep)
      (query_images ep) (query_labels ep)
    = Ok (s', (correct, total, predicted, labels)) /\
    total_predictions r' = (total_predictions r + total)%nat /\
    correct_predictions r' = (correct_predictions r + correct)%nat /\
    predictions_all r' = predictions_all r ++ predicted /\
    query_labels_all r' = query_labels_all r ++ labels /\
    classifier r' = s' /\
    stdout r' =
      stdout r ++
      [PrintLength "support_images" (length (support_images ep));
       PrintLength "support_labels" (length (support_labels ep));
       PrintLength "query_images" (length (query_images ep));
       PrintLength "query_labels" (length (query_labels ep))].
Proof.
  unfold accumulate. intros H. inv_bind H as res Hres.
  destruct res as [s' [[[correct total] predicted] labels]].
  injection H as H. subst r'. simpl.
  exists s', correct, total, predicted, labels.
  repeat split. exact Hres.
Qed.

Lemma evaluate_episode_full_inv (r r2 : run St F1) (ep : episode Image) :
  evaluate_episode model r ep = Ok r2 ->
  exists r1,
    accumulate model r ep = Ok r1 /\
    (0 < total_predictions r1)%nat /\
    total_predictions r2 = total_predictions r1 /\
    correct_predictions r2 = correct_predictions r1 /\
    predictions_all r2 = predictions_all r1 /\
    query_labels_all r2 = query_labels_all r1 /\
    classifier r2 = classifier r1 /\
    stdout r2 =
      stdout r1 ++
      [SetPostfix (ratio (correct_predictions r1) (total_predictions r1))].
Proof.
  unfold evaluate_episode. intros H.
  inv_bind H as r1 Hacc. inv_bind H as accuracy Hdiv.
  apply true_div_inv in Hdiv. destruct Hdiv as [Hpos ->].
  injection H as H. subst r2. simpl.
  exists r1. repeat split; assumption.
Qed.

Lemma accumulate_arrays_agree (r r' : run St F1) (ep : episode Image) :
  one_prediction_per_label model [ep] ->
  arrays_agree r -> accumulate model r ep = Ok r' -> arrays_agree r'.
Proof.
  intros Hone [Hp [Hl Hc]] Hacc.
  destruct (accumulate_full_inv r r' ep Hacc)
    as [s' [correct [total [predicted [labels
         [Hres [Ht' [Hc' [Hp' [Hl' _]]]]]]]]]].
  assert (Hlen := Hone ep (or_introl eq_refl) _ _ _ _ _ _ Hres).
  destruct (evaluate_on_one_task_count model _ _ _ _ _ _ _ _ _ _
              Hres Hlen) as [Hcount _].
  assert (Htotal := evaluate_on_one_task_total model _ _ _ _ _ _ _ _ _ _ Hres).
  destruct (evaluate_on_one_task_inv model _ _ _ _ _ _ _ _ _ _ Hres)
    as [_ [_ [_ [_ [_ [_ [_ [_ [_ Hlabels]]]]]]]]].
  unfold arrays_agree. rewrite Hp', Hl', Ht', Hc', !length_app.
  rewrite count_equal_app by lia.
  subst labels. repeat split; lia.
Qed.

Lemma evaluate_episodes_arrays_agree (data_loader : list (episode Image)) :
  one_prediction_per_label model data_loader ->
  forall r r' : run St F1,
    arrays_agree r ->
    evaluate_episodes model r data_loader = Ok r' -> arrays_agree r'.
Proof.
  induction data_loader as [| ep rest IH]; intros Hone r r' Hinv Hrun;
    simpl in Hrun.
  - injection Hrun as <-. exact Hinv.
  - inv_bind Hrun as r2 Hstep.
    destruct (evaluate_episode_full_inv r r2 ep Hstep)
      as [r1 [Hacc [_ [Ht [Hc [Hp [Hl _]]]]]]].
    apply (IH (fun e He => Hone e (or_intror He)) r2 r'); [| exact Hrun].
    assert (H1 : arrays_agree r1).
    { apply (accumulate_arrays_agree r r1 ep); [| exact Hinv | exact Hacc].
      intros e [<- | []]. apply Hone. left. reflexivity. }
    unfold arrays_agree in *. rewrite Hp, Hl, Ht, Hc. exact H1.
Qed.

(** What [evaluate] has computed when it returns. *)
Lemma evaluate_inv (s : St) (data_loader : list (episode Image))
    (accuracy : Q) (r : run St F1) :
  evaluate model f1_score s data_loader = Ok (accuracy, r) ->
  exists r' f1 mse mae,
    evaluate_episodes model (initial_run model s) data_loader = Ok r' /\
    f1_score (query_labels_all r') (predictions_all r') = Ok f1 /\
    mean_squared_error (map inject_Z (query_labels_all r'))
                       (map inject_Z (predictions_all r')) = Ok mse /\
    mean_absolute_error (map inject_Z (query_labels_all r'))
                        (map inject_Z (predictions_all r')) = Ok mae /\
    (0 < total_predictions r')%nat /\
    accuracy = ratio (correct_predictions r') (total_predictions r') /\
    total_predictions r = total_predictions r' /\
    correct_predictions r = correct_predictions r' /\
    predictions_all r = predictions_all r' /\
    query_labels_all r = query_labels_all r' /\
    classifier r = classifier r' /\
    stdout r =
      ((stdout r' ++
        [PrintLength "Number of Query Labels - Val"
           (length (query_labels_all r'));
         PrintLength "Number of Predicted Labels - Val"
           (length (predictions_all r'))]) ++
       [PrintF1 f1]) ++
      [PrintError "Mean Squared Error (MSE)" mse;
       PrintError "Mean Absolute Error (MAE)" mae].
Proof.
  unfold evaluate. intros H.
  inv_bind H as r' Hloop. inv_bind H as f1 Hf1.
  inv_bind H as mse Hmse. inv_bind H as mae Hmae.
  inv_bind H as acc Hdiv.
  apply true_div_inv in Hdiv. destruct Hdiv as [Hpos ->].
  injection H as <- <-. simpl.
  exists r', f1, mse, mae. repeat split; assumption.
Qed.

(** X11. When [evaluate] returns and the single-task evaluator gives one
    prediction per query label, the two collected arrays have
    [total_predictions] entries each, [correct_predictions] is the number of
    positions at which they agree, and the accuracy returned, their
    quotient, lies between 0 and 1. *)
Theorem evaluate_accuracy_of_arrays (s : St)
    (data_loader : list (episode Image)) (accuracy : Q) (r : run St F1) :
  one_prediction_per_label model data_loader ->
  evaluate model f1_score s data_loader = Ok (accuracy, r) ->
  arrays_agree r /\
  accuracy = ratio (count_equal (predictions_all r) (query_labels_all r))
                   (length (query_labels_all r)) /\
  (0 <= accuracy <= 1)%Q.
Proof.
  intros Hone H.
  destruct (evaluate_inv s data_loader accuracy r H)
    as [r' [f1 [mse [mae [Hloop [_ [_ [_ [Hpos [Hacc
         [Ht [Hc [Hp [Hl _]]]]]]]]]]]]]].
  assert (Hinv : arrays_agree r').
  { apply (evaluate_episodes_arrays_agree data_loader Hone
             (initial_run model s) r'); [| exact Hloop].
    repeat split. }
  assert (Hr : arrays_agree r).
  { unfold arrays_agree in *. rewrite Hp, Hl, Ht, Hc. exact Hinv. }
  split; [exact Hr |].
  destruct Hr as [Hrp [Hrl Hrc]].
  rewrite <- Hrc, Hrl, Ht, Hc. split; [exact Hacc |].
  rewrite Hacc. apply ratio_unit_interval; [exact Hpos |].
  destruct Hinv as [Hip [Hil Hic]]. rewrite Hic, <- Hil.
  apply count_equal_bound.
Qed.

End EvaluateFurtherProperties.

Lemma evaluate_accuracy_of_arrays_witness :
  exists (accuracy : Q) (r : run nat unit),
    evaluate Toy.classifier Toy.f1_score 0%nat [Toy.half_right; Toy.all_right]
    = Ok (accuracy, r) /\
    arrays_agree r /\
    accuracy = ratio (count_equal (predictions_all r) (query_labels_all r))
                     (length (query_labels_all r)) /\
    (0 <= accuracy <= 1)%Q.
Proof.
  eexists. eexists. split; [reflexivity |].
  apply (evaluate_accuracy_of_arrays Toy.classifier Toy.f1_score 0%nat
           [Toy.half_right; Toy.all_right]).
  - intros ep [<- | [<- | []]] st s' correct total predicted labels H;
      cbv in H; injection H as _ _ _ Hp Hl; subst predicted labels;
      reflexivity.
  - reflexivity.
Defined.

(** ** evaluate: failures and output *)




Section EvaluateOutputProperties.

Context {Image St F1 : Type}.

Variable model : FewShotClassifier Image St.

Variable f1_score : list Z -> list Z -> result F1.

(** Evaluating one sequence of episodes after another is evaluating them in
    one go. *)
Lemma evaluate_episodes_app (front back : list (episode Image)) :
  forall r : run St F1,
    evaluate_episodes model r (front ++ back) =
    bind (evaluate_episodes model r front)
         (fun r' => evaluate_episodes model r' back).
Proof.
  induction front as [| ep front IH]; intros r; simpl.
  - reflexivity.
  - destruct (evaluate_episode model r ep) as [r2 | e]; simpl.
    + apply IH.
    + reflexivity.
Qed.

(** X12. When the first episode has no query and the single-task evaluator
    returns on it, [evaluate] raises [ZeroDivisionError], whatever the
    episodes that follow. *)
Theorem evaluate_first_query_set_empty (s : St) (ep : episode Image)
    (rest : list (episode Image)) :
  query_labels ep = [] ->
  returns (evaluate_on_one_task model (eval model s)
             (support_images ep) (support_labels ep)
             (query_images ep) (query_labels ep)) ->
  evaluate model f1_score s (ep :: rest) = Raise ZeroDivisionError.
Proof.
  intros Hq [[s' [[[correct total] predicted] labels]] Hres].
  destruct (accumulate_Ok model (@initial_run Image St F1 model s) ep
              _ _ _ _ _ Hres)
    as [r1 [Hacc [Ht _]]].
  assert (Htotal := evaluate_on_one_task_total model _ _ _ _ _ _ _ _ _ _ Hres).
  assert (H0 : total_predictions r1 = 0%nat).
  { rewrite Ht, Htotal, Hq. reflexivity. }
  unfold evaluate. simpl.
  rewrite (evaluate_episode_zero model _ _ _ Hacc H0). reflexivity.
Qed.

(** X13. When the single-task evaluator raises on an episode that the loop
    has reached, [evaluate] raises the same exception, whatever the episodes
    that follow. *)
Theorem evaluate_stops_at_failure (s : St) (front : list (episode Image))
    (r : run St F1) (ep : episode Image) (e : exn)
    (rest : list (episode Image)) :
  evaluate_episodes model (initial_run model s) front = Ok r ->
  evaluate_on_one_task model (classifier r)
    (support_images ep) (support_labels ep)
    (query_images ep) (query_labels ep) = Raise e ->
  evaluate model f1_score s (front ++ ep :: rest) = Raise e.
Proof.
  intros Hfront Hfail. unfold evaluate.
  rewrite evaluate_episodes_app, Hfront. simpl.
  unfold evaluate_episode, accumulate. rewrite Hfail. reflexivity.
Qed.

Lemma evaluate_episodes_last_postfix (rest : list (episode Image)) :
  forall (ep : episode Image) (r r' : run St F1),
    evaluate_episodes model r (ep :: rest) = Ok r' ->
    exists pre,
      stdout r' =
      pre ++ [SetPostfix (ratio (correct_predictions r')
                                (total_predictions r'))].
Proof.
  induction rest as [| ep' rest IH]; intros ep r r' H;
    cbn [evaluate_episodes] in H; inv_bind H as r2 Hstep.
  - injection H as <-.
    destruct (evaluate_episode_full_inv model r r2 ep Hstep)
      as [r1 [_ [_ [Ht [Hc [_ [_ [_ Hout]]]]]]]].
    exists (stdout r1). rewrite Hout, Ht, Hc. reflexivity.
  - apply (IH ep' r2 r'). exact H.
Qed.

(** X14. When [evaluate] returns, the last running accuracy put on the
    progress bar is the accuracy returned, and it is followed by the two
    array lengths, the F1 score and the two errors, in this order. *)
Theorem evaluate_output_tail (s : St) (data_loader : list (episode Image))
    (accuracy : Q) (r : run St F1) :
  evaluate model f1_score s data_loader = Ok (accuracy, r) ->
  exists pre f1 mse mae,
    stdout r =
    pre ++
    [SetPostfix accuracy;
     PrintLength "Number of Query Labels - Val" (length (query_labels_all r));
     PrintLength "Number of Predicted Labels - Val"
                 (length (predictions_all r));
     PrintF1 f1;
     PrintError "Mean Squared Error (MSE)" mse;
     PrintError "Mean Absolute Error (MAE)" mae].
Proof.
  intros H.
  destruct (evaluate_inv model f1_score s data_loader accuracy r H)
    as [r' [f1 [mse [mae [Hloop [_ [_ [_ [Hpos [Hacc
         [_ [_ [Hp [Hl [_ Hout]]]]]]]]]]]]]]].
  destruct data_loader as [| ep rest].
  - simpl in Hloop. injection Hloop as <-. simpl in Hpos. lia.
  - destruct (evaluate_episodes_last_postfix rest ep _ r' Hloop)
      as [pre Hpre].
    exists pre, f1, mse, mae.
    rewrite Hout, Hpre, Hp, Hl, Hacc, <- !app_assoc. reflexivity.
Qed.


End EvaluateOutputProperties.

Lemma evaluate_first_query_set_empty_witness :
  evaluate Toy.classifier Toy.f1_score 0%nat
    [Toy.no_query; Toy.all_right; Toy.half_right]
  = Raise ZeroDivisionError.
Proof.
  apply (evaluate_first_query_set_empty Toy.classifier Toy.f1_score 0%nat
           Toy.no_query [Toy.all_right; Toy.half_right]).
  - reflexivity.
  - eexists. reflexivity.
Defined.

(** After a first episode that goes well, an episode with three queries
    and two labels makes the comparison, and so the evaluation, fail. *)
Lemma evaluate_stops_at_failure_witness :
  evaluate Toy.classifier Toy.f1_score 0%nat
    ([Toy.half_right] ++
     mkEpisode [0; 1] [0; 1] [0; 0; 0] [0; 0] [0; 1] :: [Toy.all_right])
  = Raise (RuntimeError
             "The size of tensor a must match the size of tensor b").
Proof.
  eapply (evaluate_stops_at_failure Toy.classifier Toy.f1_score 0%nat
            [Toy.half_right]).
  - reflexivity.
  - reflexivity.
Defined.

Lemma evaluate_output_tail_witness :
  exists (accuracy : Q) (r : run nat unit),
    evaluate Toy.classifier Toy.f1_score 0%nat [Toy.half_right; Toy.all_right]
    = Ok (accuracy, r) /\
    exists pre f1 mse mae,
      stdout r =
      pre ++
      [SetPostfix accuracy;
       PrintLength "Number of Query Labels - Val" (length (query_labels_all r));
       PrintLength "Number of Predicted Labels - Val"
                   (length (predictions_all r));
       PrintF1 f1;
       PrintError "Mean Squared Error (MSE)" mse;
       PrintError "Mean Absolute Error (MAE)" mae].
Proof.
  eexists. eexists. split; [reflexivity |].
  apply (evaluate_output_tail Toy.classifier Toy.f1_score 0%nat
           [Toy.half_right; Toy.all_right]).
  reflexivity.
Defined.


(** ** predict_embeddings on any data source *)

Section PredictEmbeddingsFurther.

Context {Image Label : Type}.

Variable model : list Image -> result tensor2.

Lemma embed_batches_general (dataloader : list (@batch Image Label)) :
  forall (all_embeddings : list tensor2) (all_class_names : list Label),
    embed_batches model (all_embeddings, all_class_names) dataloader =
    es <- batch_embeddings model dataloader ;;
    Ok (all_embeddings ++ es, all_class_names ++ all_labels dataloader).
Proof.
  unfold all_labels.
  induction dataloader as [| [images class_names] rest IH];
    intros all_embeddings all_class_names.
  - simpl. rewrite !app_nil_r. reflexivity.
  - cbn [embed_batches batch_embeddings embed_batch fst snd].
    destruct (model images) as [e | err]; [| reflexivity].
    cbn [bind].
    assert (Hstep : (match class_names with
                     | LabelTensor t => all_class_names ++ tolist t
                     | LabelSequence l => all_class_names ++ l
                     end) = all_class_names ++ batch_labels class_names)
      by (destruct class_names; reflexivity).
    rewrite Hstep, IH.
    destruct (batch_embeddings model rest) as [es | err]; [| reflexivity].
    simpl. rewrite <- !app_assoc. reflexivity.
Qed.

(** [predict_embeddings] in three steps: the embeddings of the batches,
    their concatenation, the table. *)
Lemma predict_embeddings_steps (dataloader : list (@batch Image Label)) :
  predict_embeddings model dataloader =
  es <- batch_embeddings model dataloader ;;
  concatenated_embeddings <- torch_cat es ;;
  DataFrame (rows concatenated_embeddings) (all_labels dataloader).
Proof.
  unfold predict_embeddings. rewrite embed_batches_general.
  destruct (batch_embeddings model dataloader); reflexivity.
Qed.

Lemma batch_embeddings_app (front back : list (@batch Image Label)) :
  batch_embeddings model (front ++ back) =
  es <- batch_embeddings model front ;;
  es' <- batch_embeddings model back ;;
  Ok (es ++ es').
Proof.
  induction front as [| b front IH]; simpl.
  - destruct (batch_embeddings model back); reflexivity.
  - destruct (model (fst b)) as [e | err]; [| reflexivity]. simpl.
    rewrite IH.
    destruct (batch_embeddings model front) as [es | err]; [| reflexivity].
    simpl. destruct (batch_embeddings model back); reflexivity.
Qed.




(** X17. When the feature extractor raises on a batch, after returning on
    the batches before it, [predict_embeddings] raises the same exception,
    whatever the batches that follow. *)
Theorem predict_embeddings_extractor_failure
    (front : list (@batch Image Label)) (b : @batch Image Label)
    (rest : list (@batch Image Label)) (e : exn) :
  returns (batch_embeddings model front) ->
  model (fst b) = Raise e ->
  predict_embeddings model (front ++ b :: rest) = Raise e.
Proof.
  intros [es Hes] Hb.
  rewrite predict_embeddings_steps, batch_embeddings_app, Hes.
  simpl. rewrite Hb. reflexivity.
Qed.

(** X18. When the feature extractor returns on every batch, the table is
    built from the totals only: with at least one batch and embeddings of
    one dimension, [predict_embeddings] pairs the concatenated embeddings
    with the concatenated labels if there are as many of the ones as of the
    others, also when single batches have more or fewer labels than images,
    and raises pandas' [ValueError] if not. *)
Theorem predict_embeddings_totals (dataloader : list (@batch Image Label))
    (es : list tensor2) (d : nat) :
  batch_embeddings model dataloader = Ok es ->
  es <> [] -> Forall (fun e => ncols e = d) es ->
  (length (concat (map rows es)) = length (all_labels dataloader) ->
   exists table,
     predict_embeddings model dataloader = Ok table /\
     map (fun r => (embedding r, class_name r)) table
     = combine (concat (map rows es)) (all_labels dataloader)) /\
  (length (concat (map rows es)) <> length (all_labels dataloader) ->
   predict_embeddings model dataloader
   = Raise (ValueError "All arrays must be of the same length")).
Proof.
  intros Hes Hne Hd.
  rewrite predict_embeddings_steps, Hes. simpl.
  rewrite (torch_cat_Ok d es Hne Hd). simpl. unfold DataFrame.
  split; intros Hlen.
  - rewrite Hlen, Nat.eqb_refl. eexists. split; [reflexivity |].
    rewrite map_map. simpl.
    rewrite (map_ext _ (fun p => p)) by (intros [x y]; reflexivity).
    apply map_id.
  - destruct (Nat.eqb_spec (length (concat (map rows es)))
                           (length (all_labels dataloader)));
      [contradiction | reflexivity].
Qed.

(** X19. When two batches give embeddings of different dimensions,
    [torch.cat], and with it [predict_embeddings], raises a
    [RuntimeError]. *)
Theorem predict_embeddings_dimension_mismatch
    (dataloader : list (@batch Image Label))
    (e : tensor2) (es : list tensor2) (e' : tensor2) :
  batch_embeddings model dataloader = Ok (e :: es) ->
  In e' es -> ncols e' <> ncols e ->
  predict_embeddings model dataloader
  = Raise (RuntimeError "Sizes of tensors must match except in dimension 0").
Proof.
  intros Hes Hin Hne.
  rewrite predict_embeddings_steps, Hes. simpl.
  rewrite Nat.eqb_refl. simpl.
  destruct (forallb (fun u => Nat.eqb (ncols u) (ncols e)) es) eqn:Hall.
  - rewrite forallb_forall in Hall. specialize (Hall e' Hin).
    apply Nat.eqb_eq in Hall. contradiction.
  - reflexivity.
Qed.

(** X20. Tables compose: when [predict_embeddings] returns on two data
    sources whose embeddings all have the same dimension, it returns on the
    two put one after the other, and the table is the first table followed
    by the second. *)
Theorem predict_embeddings_app (front back : list (@batch Image Label))
    (es es' : list tensor2) (d : nat)
    (table table' : list (row Label)) :
  batch_embeddings model front = Ok es ->
  batch_embeddings model back = Ok es' ->
  Forall (fun e => ncols e = d) (es ++ es') ->
  predict_embeddings model front = Ok table ->
  predict_embeddings model back = Ok table' ->
  predict_embeddings model (front ++ back) = Ok (table ++ table').
Proof.
  intros Hes Hes' Hd Ht Ht'.
  apply Forall_app in Hd. destruct Hd as [Hd Hd'].
  rewrite predict_embeddings_steps, Hes in Ht. simpl in Ht.
  rewrite predict_embeddings_steps, Hes' in Ht'. simpl in Ht'.
  inv_bind Ht as c Hc. inv_bind Ht' as c' Hc'.
  assert (Hne : es <> []) by (intros ->; discriminate Hc).
  assert (Hne' : es' <> []) by (intros ->; discriminate Hc').
  rewrite (torch_cat_Ok d es Hne Hd) in Hc. injection Hc as <-.
  rewrite (torch_cat_Ok d es' Hne' Hd') in Hc'. injection Hc' as <-.
  simpl in Ht, Ht'. unfold DataFrame in Ht, Ht'.
  destruct (Nat.eqb_spec (length (concat (map rows es)))
                         (length (all_labels front))) as [Hl | _];
    [| discriminate Ht].
  destruct (Nat.eqb_spec (length (concat (map rows es')))
                         (length (all_labels back))) as [Hl' | _];
    [| discriminate Ht'].
  injection Ht as <-. injection Ht' as <-.
  rewrite predict_embeddings_steps, batch_embeddings_app, Hes. simpl.
  rewrite Hes'. simpl.
  rewrite (torch_cat_Ok d (es ++ es')).
  - simpl. unfold DataFrame, all_labels.
    rewrite !map_app, !concat_app, !length_app.
    unfold all_labels in Hl, Hl'. rewrite Hl, Hl', Nat.eqb_refl.
    rewrite combine_append by exact Hl. rewrite map_app. reflexivity.
  - intros H. apply app_eq_nil in H. destruct H as [H _]. contradiction.
  - apply Forall_app. split; assumption.
Qed.


End PredictEmbeddingsFurther.

Lemma predict_embeddings_extractor_failure_witness :
  predict_embeddings ToyMore.picky_extractor
    ([([10; 20], LabelTensor [1; 2])] ++
     ([30; -1], LabelSequence [3; 4]) :: [([50], LabelTensor [5])])
  = Raise (CollaboratorError "negative image").
Proof.
  apply (predict_embeddings_extractor_failure ToyMore.picky_extractor
           [([10; 20], LabelTensor [1; 2])]
           ([30; -1], LabelSequence [3; 4]) [([50], LabelTensor [5])]).
  - eexists. reflexivity.
  - reflexivity.
Defined.

Lemma predict_embeddings_totals_witness :
  (exists table,
     predict_embeddings Toy.extractor ToyMore.shifted_batches = Ok table /\
     map (fun r => (embedding r, class_name r)) table
     = [(Toy.embed 10, 1); (Toy.embed 20, 2); (Toy.embed 30, 3)]) /\
  predict_embeddings Toy.extractor ToyMore.short_of_labels
  = Raise (ValueError "All arrays must be of the same length").
Proof.
  split.
  - apply (predict_embeddings_totals Toy.extractor ToyMore.shifted_batches
             [mkTensor2 4 (map Toy.embed [10; 20]);
              mkTensor2 4 (map Toy.embed [30])] 4).
    + reflexivity.
    + discriminate.
    + repeat constructor.
    + reflexivity.
  - apply (predict_embeddings_totals Toy.extractor ToyMore.short_of_labels
             [mkTensor2 4 (map Toy.embed [10; 20])] 4).
    + reflexivity.
    + discriminate.
    + repeat constructor.
    + simpl. lia.
Defined.

Lemma predict_embeddings_dimension_mismatch_witness :
  predict_embeddings ToyMore.ragged_extractor Toy.three_batches
  = Raise (RuntimeError "Sizes of tensors must match except in dimension 0").
Proof.
  eapply (predict_embeddings_dimension_mismatch ToyMore.ragged_extractor
            Toy.three_batches).
  - reflexivity.
  - left. reflexivity.
  - simpl. lia.
Defined.

Lemma predict_embeddings_app_witness :
  exists table table',
    predict_embeddings Toy.extractor [([10; 20], LabelTensor [1; 2])]
    = Ok table /\
    predict_embeddings Toy.extractor
      [([30; 40; 50], LabelSequence [3; 4; 5]); ([60], LabelTensor [6])]
    = Ok table' /\
    predict_embeddings Toy.extractor Toy.three_batches = Ok (table ++ table').
Proof.
  eexists. eexists. split; [reflexivity |]. split; [reflexivity |].
  apply (predict_embeddings_app Toy.extractor
           [([10; 20], LabelTensor [1; 2])]
           [([30; 40; 50], LabelSequence [3; 4; 5]); ([60], LabelTensor [6])]
           [mkTensor2 4 (map Toy.embed [10; 20])]
           [mkTensor2 4 (map Toy.embed [30; 40; 50]);
            mkTensor2 4 (map Toy.embed [60])] 4).
  - reflexivity.
  - reflexivity.
  - repeat constructor.
  - reflexivity.
  - reflexivity.
Defined.

(** ** compute_average_features_from_images *)



Section AverageFeaturesProperties.

Context {Image Label : Type}.

Variable model : list Image -> result tensor2.



End AverageFeaturesProperties.



(** ** sliding_average as a list grows *)





